(** * The [Transit] operation of exoplanet: batch evaluator and binding kernel

    Source: [src/transit/transit_op/transit_op.cc].

    The file registers a TensorFlow operation [Transit] with three inputs
    ([params], [z], [r]) and one output ([delta]).  Its kernel,
    [TransitOp::Compute], validates the inputs, allocates the output and calls
    [TransitFunctor<Device, T>], whose CPU specialisation is a plain loop
    around [transit::compute_delta<T>].

    Modelling conventions.
    - [int] and [int64] values are integers of [Z]; the narrowing
      [static_cast<int>] and the increment [++i] have their 32-bit two's
      complement wrap-around written out.
    - A [T*] obtained from [Tensor::flat<T>().data()] points to the first
      element of a buffer; it is modelled by the identifier of that buffer in
      a heap [gmap positive (list T)].  Two pointers alias iff the
      identifiers are equal.
    - An access outside a buffer is undefined behaviour: [load] and [store]
      return [None] and the run ends in [Undefined].
    - [T] ([float] or [double]) and [transit::compute_delta<T>] (declared in
      [transit_op.h], which takes the grid by [const T*]) are parameters of
      the development: [compute_delta] receives the contents of the buffer
      its pointer argument designates and returns a value. *)

From stdpp Require Import gmap list strings.

Local Open Scope Z_scope.

(** ** Machine integers *)

(** [tensorflow::kint32max]. *)
Definition kint32max : Z := 2147483647.

(** [static_cast<int>(x)] for a 64-bit [x]: reduction modulo [2^32] into
    the signed range. *)
Definition static_cast_int (x : Z) : Z := (x + 2 ^ 31) `mod` 2 ^ 32 - 2 ^ 31.

(** [++i] on an [int].  The loop only increments a counter below [size],
    itself an [int], so the wrap-around is never taken
    ([int_incr_small], [for_loop_schedule]). *)
Definition int_incr (i : Z) : Z := static_cast_int (i + 1).

(** ** Results of running code that may fault *)

(** How a run can go wrong: an access outside a buffer (undefined behaviour
    in C++), or a loop of the model that was given too little fuel. *)
Inductive fault : Type :=
  | Undefined
  | OutOfFuel.

Inductive outcome (A : Type) : Type :=
  | Done (a : A)
  | Crash (f : fault).
Arguments Done {A} a.
Arguments Crash {A} f.

(** A buffer pointer. *)
Abbreviation buffer := positive.

(** The arguments of one call of [TransitFunctor::operator()], in the order
    of the source (the device handle [d] is not used by the body). *)
Record FunctorArgs : Type := mkArgs {
  a_grid_size : Z;
  a_grid : buffer;
  a_size : Z;
  a_z : buffer;
  a_r : buffer;
  a_delta : buffer
}.

Section Core.

Context {T : Type}.

(** [transit::compute_delta<T>(grid_size, grid, z, r)]. *)
Variable compute_delta : Z → list T → T → T → T.

(** [p[i]] as an rvalue. *)
Definition load (m : gmap positive (list T)) (p : buffer) (i : Z) : option T :=
  match m !! p with
  | Some l => if 0 <=? i then l !! Z.to_nat i else None
  | None => None
  end.

(** [p[i] = v]. *)
Definition store (m : gmap positive (list T)) (p : buffer) (i : Z) (v : T)
  : option (gmap positive (list T)) :=
  match m !! p with
  | Some l =>
      if (0 <=? i) && (i <? Z.of_nat (length l))
      then Some (<[p := <[Z.to_nat i := v]> l]> m)
      else None
  | None => None
  end.

(** The loop body,
    [delta[i] = transit::compute_delta<T>(grid_size, grid, z[i], r[i]);]. *)
Definition body (a : FunctorArgs) (i : Z) (m : gmap positive (list T))
  : option (gmap positive (list T)) :=
  match load m (a_z a) i, load m (a_r a) i, m !! a_grid a with
  | Some zi, Some ri, Some g =>
      store m (a_delta a) i (compute_delta (a_grid_size a) g zi ri)
  | _, _, _ => None
  end.

(** [for (int i = ...; i < size; ++i) body], entered with the current value
    of [i]. *)
Fixpoint for_loop (a : FunctorArgs) (fuel : nat) (i : Z)
    (m : gmap positive (list T)) : outcome (gmap positive (list T)) :=
  if i <? a_size a then
    match fuel with
    | O => Crash OutOfFuel
    | S fuel' =>
        match body a i m with
        | Some m' => for_loop a fuel' (int_incr i) m'
        | None => Crash Undefined
        end
    end
  else Done m.

(** [TransitFunctor<CPUDevice, T>::operator()]. *)
Definition TransitFunctor_CPU (a : FunctorArgs) (m : gmap positive (list T))
  : outcome (gmap positive (list T)) :=
  for_loop a (Z.to_nat (a_size a)) 0 m.

(** The per-sample assignments carried out in a given order. *)
Fixpoint run_schedule (a : FunctorArgs) (sched : list Z)
    (m : gmap positive (list T)) : option (gmap positive (list T)) :=
  match sched with
  | [] => Some m
  | i :: sched' =>
      match body a i m with
      | Some m' => run_schedule a sched' m'
      | None => None
      end
  end.

(** The values the batch is expected to hold: one [compute_delta] per
    sample pair. *)
Definition batch (grid_size : Z) (g zs rs : list T) : list T :=
  zip_with (compute_delta grid_size g) zs rs.

(** A call of the functor on four live buffers: [z], [r] and [delta] hold
    [size] elements each ([size] is an [int]), and the output buffer is not
    the grid. *)
Definition functor_pre (a : FunctorArgs) (m : gmap positive (list T))
    (g zs rs ds : list T) : Prop :=
  m !! a_grid a = Some g ∧ m !! a_z a = Some zs ∧
  m !! a_r a = Some rs ∧ m !! a_delta a = Some ds ∧
  Z.of_nat (length zs) = a_size a ∧ Z.of_nat (length rs) = a_size a ∧
  Z.of_nat (length ds) = a_size a ∧
  a_size a ≤ kint32max ∧ a_delta a ≠ a_grid a.

(** Slot [i] of the buffer [p] points to exists. *)
Definition in_bounds (m : gmap positive (list T)) (p : buffer) (i : Z) : Prop :=
  ∃ l, m !! p = Some l ∧ 0 ≤ i < Z.of_nat (length l).

(** What iteration [i] of the loop dereferences: [z[i]], [r[i]], the grid
    and [delta[i]]. *)
Definition accessible (a : FunctorArgs) (m : gmap positive (list T)) (i : Z)
  : Prop :=
  in_bounds m (a_z a) i ∧ in_bounds m (a_r a) i
  ∧ is_Some (m !! a_grid a) ∧ in_bounds m (a_delta a) i.

(** Modelled from the spec: the data-parallel specialisation
    [TransitFunctor<GPUDevice, T>] is defined outside
    [transit_op.cc].  The spec describes it as the same per-sample
    computation with the sample as the unit of parallelism and no
    coordination between lanes; [sched] is the order in which the lanes
    complete their samples. *)
Definition TransitFunctor_GPU (sched : list Z) (a : FunctorArgs)
    (m : gmap positive (list T)) : outcome (gmap positive (list T)) :=
  match run_schedule a sched m with
  | Some m' => Done m'
  | None => Crash Undefined
  end.

End Core.

(** The indices [0, 1, ..., n-1] as [int] values. *)
Definition indices (n : nat) : list Z := Z.of_nat <$> seq 0 n.

(** ** The framework objects used by the kernel *)

(** [tensorflow::error::Code]. *)
Inductive Code : Type :=
  | OK | CANCELLED | UNKNOWN | INVALID_ARGUMENT | DEADLINE_EXCEEDED
  | NOT_FOUND | ALREADY_EXISTS | PERMISSION_DENIED | UNAUTHENTICATED
  | RESOURCE_EXHAUSTED | FAILED_PRECONDITION | ABORTED | OUT_OF_RANGE
  | UNIMPLEMENTED | INTERNAL | UNAVAILABLE | DATA_LOSS.

Global Instance Code_eq_dec : EqDecision Code.
Proof. solve_decision. Defined.

Record Status : Type := mkStatus {
  code : Code;
  error_message : string
}.

Definition Status_OK : Status := mkStatus OK EmptyString.
Definition InvalidArgument (msg : string) : Status := mkStatus INVALID_ARGUMENT msg.
Definition Internal (msg : string) : Status := mkStatus INTERNAL msg.
Definition ok (s : Status) : bool := bool_decide (code s = OK).

(** [Status::Update]: the first error is kept. *)
Definition Update (old new : Status) : Status := if ok old then new else old.

(** A tensor: its [TensorShape] (the dimension sizes) and the buffer
    [flat<T>().data()] points to. *)
Record Tensor : Type := mkTensor {
  shape : list Z;
  data : buffer
}.

(** [TensorShape::num_elements]: the product of the dimension sizes, which
    the framework keeps within [int64]. *)
Definition num_elements (sh : list Z) : Z := foldr Z.mul 1 sh.

(** [Tensor::NumElements]. *)
Definition NumElements (t : Tensor) : Z := num_elements (shape t).

(** The three inputs fixed by [REGISTER_OP("Transit")], in order. *)
Record Inputs (A : Type) : Type := mkInputs {
  in_params : A;
  in_z : A;
  in_r : A
}.
Arguments mkInputs {A} _ _ _.
Arguments in_params {A} _.
Arguments in_z {A} _.
Arguments in_r {A} _.

Definition nth_input {A : Type} (ins : Inputs A) (i : Z) : A :=
  if i =? 0 then in_params ins else if i =? 1 then in_z ins else in_r ins.

Section Kernel.

Context {T : Type}.

(** What the framework's allocator does on the next request: the status it
    returns, and the (uninitialised) contents of the buffer it hands out. *)
Record Allocator : Type := mkAllocator {
  alloc_status : Status;
  alloc_fill : nat → T
}.

(** [OpKernelContext].  [functor_calls] and [aborted] are not fields of the
    C++ object: they record, for the statements below, each call of the
    functor with its arguments and whether the functor faulted. *)
Record OpKernelContext : Type := mkContext {
  inputs : Inputs Tensor;
  heap : gmap positive (list T);
  allocator : Allocator;
  status : Status;
  output0 : option Tensor;
  functor_calls : list FunctorArgs;
  aborted : option fault
}.

(** The context the framework hands to [Compute]. *)
Definition new_context (ins : Inputs Tensor) (h : gmap positive (list T))
    (al : Allocator) : OpKernelContext :=
  mkContext ins h al Status_OK None [] None.

Definition input (context : OpKernelContext) (i : Z) : Tensor :=
  nth_input (inputs context) i.

(** [OpKernelContext::SetStatus] and [CtxFailure]. *)
Definition SetStatus (context : OpKernelContext) (s : Status) : OpKernelContext :=
  mkContext (inputs context) (heap context) (allocator context)
            (Update (status context) s)
            (output0 context) (functor_calls context) (aborted context).

Definition CtxFailure (context : OpKernelContext) (s : Status) : OpKernelContext :=
  SetStatus context s.

(** [OP_REQUIRES(context, cond, s); rest] and
    [OP_REQUIRES_OK(context, s); rest]. *)
Definition OP_REQUIRES (context : OpKernelContext) (cond : bool) (s : Status)
    (rest : OpKernelContext) : OpKernelContext :=
  if cond then rest else CtxFailure context s.

Definition OP_REQUIRES_OK (context : OpKernelContext) (s : Status)
    (rest : OpKernelContext) : OpKernelContext :=
  if ok s then rest else CtxFailure context s.

(** [OpKernelContext::allocate_output(index, shape, &tensor)]: the
    operation has one output; a successful request creates a buffer of
    [num_elements shape] elements that no existing buffer shares. *)
Definition allocate_output (context : OpKernelContext) (index : Z)
    (sh : list Z) : Status * OpKernelContext * option Tensor :=
  if (index <? 0) || (1 <=? index) then
    (Internal "allocate_output with bad index", context, None)
  else if ok (alloc_status (allocator context)) then
    let b := fresh (dom (heap context)) in
    let t := mkTensor sh b in
    let contents := alloc_fill (allocator context) <$> seq 0 (Z.to_nat (num_elements sh)) in
    (Status_OK,
     mkContext (inputs context) (<[b := contents]> (heap context))
               (allocator context) (status context) (Some t)
               (functor_calls context) (aborted context),
     Some t)
  else (alloc_status (allocator context), context, None).

(** A functor specialisation, as [Compute] sees it. *)
Definition Functor : Type :=
  FunctorArgs → gmap positive (list T) → outcome (gmap positive (list T)).

(** The statement [TransitFunctor<Device, T>()(...)]. *)
Definition call_functor (F : Functor) (context : OpKernelContext)
    (a : FunctorArgs) : OpKernelContext :=
  match F a (heap context) with
  | Done h' =>
      mkContext (inputs context) h' (allocator context) (status context)
                (output0 context) (functor_calls context ++ [a]) (aborted context)
  | Crash f =>
      mkContext (inputs context) (heap context) (allocator context) (status context)
                (output0 context) (functor_calls context ++ [a]) (Some f)
  end.

(** Dereferencing the null [delta_tensor]. *)
Definition null_dereference (context : OpKernelContext) : OpKernelContext :=
  mkContext (inputs context) (heap context) (allocator context) (status context)
            (output0 context) (functor_calls context) (Some Undefined).

(** [TransitOp<Device, T>::Compute]; [F] is [TransitFunctor<Device, T>]. *)
Definition Compute (F : Functor) (context : OpKernelContext) : OpKernelContext :=
  let grid_tensor := input context 0 in
  let z_tensor := input context 1 in
  let r_tensor := input context 2 in
  let grid_size := NumElements grid_tensor in
  let size := NumElements z_tensor in
  OP_REQUIRES context (NumElements r_tensor =? size)
    (InvalidArgument "z and r must have the same number of elements")
  (let '(st, context1, delta_tensor) :=
     allocate_output context 0 (shape z_tensor) in
   OP_REQUIRES_OK context1 st
   (match delta_tensor with
    | None => null_dereference context1
    | Some delta_tensor =>
        let grid := data grid_tensor in
        let z := data z_tensor in
        let r := data r_tensor in
        let delta := data delta_tensor in
        OP_REQUIRES context1 (size <=? kint32max)
          (InvalidArgument "Too many elements in tensor")
        (call_functor F context1
           (mkArgs (static_cast_int grid_size) grid
                   (static_cast_int size) z r delta))
    end)).

(** The context after a successful [allocate_output] from a new context:
    the output tensor has the shape of [z] and a new buffer. *)
Definition allocated (ins : Inputs Tensor) (h : gmap positive (list T))
    (al : Allocator) : OpKernelContext :=
  mkContext ins
    (<[fresh (dom h) :=
         alloc_fill al <$> seq 0 (Z.to_nat (num_elements (shape (in_z ins))))]> h)
    al Status_OK (Some (mkTensor (shape (in_z ins)) (fresh (dom h)))) [] None.

(** The arguments [Compute] passes to the functor. *)
Definition kernel_args (ins : Inputs Tensor) (h : gmap positive (list T))
  : FunctorArgs :=
  mkArgs (static_cast_int (NumElements (in_params ins))) (data (in_params ins))
         (static_cast_int (NumElements (in_z ins))) (data (in_z ins))
         (data (in_r ins)) (fresh (dom h)).

(** The kernel registered by [REGISTER_CPU]: [TransitOp<CPUDevice, T>],
    run on the context the framework builds for one call. *)
Definition TransitOp_CPU (compute_delta : Z → list T → T → T → T)
    (ins : Inputs Tensor) (h : gmap positive (list T)) (al : Allocator)
  : OpKernelContext :=
  Compute (TransitFunctor_CPU compute_delta) (new_context ins h al).

(** An input tensor whose buffer is live and holds as many elements as its
    shape says. *)
Definition tensor_ok (h : gmap positive (list T)) (t : Tensor) : Prop :=
  ∃ l, h !! data t = Some l ∧ Z.of_nat (length l) = NumElements t.

End Kernel.
Arguments Allocator T : clear implicits.
Arguments OpKernelContext T : clear implicits.
Arguments Functor T : clear implicits.

(** ** Shape inference *)

(** A dimension is known or not; a shape has a known rank or not. *)
Definition DimensionHandle : Type := option Z.
Definition ShapeHandle : Type := option (list DimensionHandle).

Record InferenceContext : Type := mkInference {
  ic_inputs : Inputs ShapeHandle;
  ic_output0 : option ShapeHandle
}.

Definition ic_input (c : InferenceContext) (i : Z) : ShapeHandle :=
  nth_input (ic_inputs c) i.

Definition set_output (c : InferenceContext) (s : ShapeHandle) : InferenceContext :=
  mkInference (ic_inputs c) (Some s).

(** [InferenceContext::WithRank]. *)
Definition WithRank (s : ShapeHandle) (rank : Z) : Status * ShapeHandle :=
  match s with
  | None => (Status_OK, Some (replicate (Z.to_nat rank) None))
  | Some dims =>
      if Z.of_nat (length dims) =? rank then (Status_OK, s)
      else (InvalidArgument "Shape must be rank", None)
  end.

(** Merging two dimensions: equal if both are known. *)
Definition merge_dim (d0 d1 : DimensionHandle) : option DimensionHandle :=
  match d0, d1 with
  | Some x, Some y => if x =? y then Some d0 else None
  | Some _, None => Some d0
  | None, _ => Some d1
  end.

Fixpoint merge_dims (l0 l1 : list DimensionHandle) : option (list DimensionHandle) :=
  match l0, l1 with
  | [], [] => Some []
  | d0 :: l0', d1 :: l1' =>
      match merge_dim d0 d1, merge_dims l0' l1' with
      | Some d, Some l => Some (d :: l)
      | _, _ => None
      end
  | _, _ => None
  end.

(** [InferenceContext::Merge]. *)
Definition Merge (s0 s1 : ShapeHandle) : Status * ShapeHandle :=
  match s0, s1 with
  | _, None => (Status_OK, s0)
  | None, _ => (Status_OK, s1)
  | Some l0, Some l1 =>
      if length l0 =? length l1 then
        match merge_dims l0 l1 with
        | Some l => (Status_OK, Some l)
        | None => (InvalidArgument "Dimensions must be equal", None)
        end
      else (InvalidArgument "Shapes must be equal rank", None)
  end%nat.

(** The function given to [SetShapeFn]; [TF_RETURN_IF_ERROR] returns the
    status at once when it is an error. *)
Definition TransitShapeFn (c : InferenceContext) : Status * InferenceContext :=
  let '(st1, shape1) := WithRank (ic_input c 0) 1 in
  if negb (ok st1) then (st1, c) else
  let '(st2, shape2) := Merge (ic_input c 1) (ic_input c 2) in
  if negb (ok st2) then (st2, c) else
  (Status_OK, set_output c (ic_input c 1)).

(** ** Concrete inputs

    A stand-in for [compute_delta] on integers, and small heaps, on which
    the model is run. *)
Module Examples.

(** Nearest-lower grid value scaled by [r]. *)
Definition sample_delta (grid_size : Z) (g : list Z) (z r : Z) : Z :=
  default 0 (g !! Z.to_nat z) * r + grid_size.

(** Buffers: 1 the grid, 2 [z], 3 [r], 4 [delta]. *)
Definition heap1 : gmap positive (list Z) :=
  <[1%positive := [10; 9; 8; 7]]>
  (<[2%positive := [0; 1; 3]]>
  (<[3%positive := [1; 2; 3]]>
  (<[4%positive := [0; 0; 0]]> ∅))).

Definition args1 : FunctorArgs := mkArgs 4 1%positive 3 2%positive 3%positive 4%positive.

(** The same inputs at other addresses, with other junk in the output. *)
Definition heap2 : gmap positive (list Z) :=
  <[5%positive := [10; 9; 8; 7]]>
  (<[6%positive := [0; 1; 3]]>
  (<[7%positive := [1; 2; 3]]>
  (<[8%positive := [5; 5; 5]]> ∅))).

Definition args2 : FunctorArgs := mkArgs 4 5%positive 3 6%positive 7%positive 8%positive.

(** The samples of [heap1] reordered by [perm1]. *)
Definition perm1 : list nat := [2; 0; 1]%nat.

(** Kernel inputs: a four-element grid and three samples. *)
Definition inputs1 : Inputs Tensor :=
  mkInputs (mkTensor [4] 1%positive) (mkTensor [3] 2%positive)
           (mkTensor [3] 3%positive).

(** A zero-element grid with two samples. *)
Definition inputs_empty_grid : Inputs Tensor :=
  mkInputs (mkTensor [0] 1%positive) (mkTensor [2] 2%positive)
           (mkTensor [2] 3%positive).

Definition heap_empty_grid : gmap positive (list Z) :=
  <[1%positive := []]>
  (<[2%positive := [0; 1]]>
  (<[3%positive := [1; 2]]> ∅)).

(** [z] and [r] of [2^31] elements each, one more than [kint32max]. *)
Definition inputs_oversized : Inputs Tensor :=
  mkInputs (mkTensor [4] 1%positive) (mkTensor [2147483648] 2%positive)
           (mkTensor [2147483648] 3%positive).

(** An allocator that serves the request, and one that is out of memory. *)
Definition alloc_ok : Allocator Z := mkAllocator Status_OK (λ _, 0).

Definition alloc_oom : Allocator Z :=
  mkAllocator (mkStatus RESOURCE_EXHAUSTED "OOM when allocating tensor") (λ _, 0).

(** Heaps [heap1] and [heap_empty_grid] without an output buffer. *)
Definition heap_in : gmap positive (list Z) :=
  <[1%positive := [10; 9; 8; 7]]>
  (<[2%positive := [0; 1; 3]]>
  (<[3%positive := [1; 2; 3]]> ∅)).

(** [z] of three elements, [r] of two. *)
Definition inputs_mismatch : Inputs Tensor :=
  mkInputs (mkTensor [4] 1%positive) (mkTensor [3] 2%positive)
           (mkTensor [2] 3%positive).

(** The CPU kernel run on these inputs. *)
Definition run1 : OpKernelContext Z :=
  Compute (TransitFunctor_CPU sample_delta) (new_context inputs1 heap_in alloc_ok).

Definition heap_mismatch : gmap positive (list Z) :=
  <[1%positive := [10; 9; 8; 7]]>
  (<[2%positive := [0; 1; 3]]>
  (<[3%positive := [1; 2]]> ∅)).

Definition run_mismatch : OpKernelContext Z :=
  Compute (TransitFunctor_CPU sample_delta)
    (new_context inputs_mismatch heap_mismatch alloc_ok).

Definition run_empty_grid : OpKernelContext Z :=
  Compute (TransitFunctor_CPU sample_delta)
    (new_context inputs_empty_grid heap_empty_grid alloc_ok).

(** Buffers of [2^31] elements for [z] and [r]. *)
Definition heap_oversized : gmap positive (list Z) :=
  <[1%positive := [10; 9; 8; 7]]>
  (<[2%positive := replicate (Z.to_nat 2147483648) 0]>
  (<[3%positive := replicate (Z.to_nat 2147483648) 1]> ∅)).

Definition run_oversized_oom : OpKernelContext Z :=
  Compute (TransitFunctor_CPU sample_delta)
    (new_context inputs_oversized heap_oversized alloc_oom).

(** No samples at all. *)
Definition inputs_empty_batch : Inputs Tensor :=
  mkInputs (mkTensor [4] 1%positive) (mkTensor [0] 2%positive)
           (mkTensor [0] 3%positive).

Definition heap_empty_batch : gmap positive (list Z) :=
  <[1%positive := [10; 9; 8; 7]]>
  (<[2%positive := []]>
  (<[3%positive := []]> ∅)).

Definition run_empty_batch : OpKernelContext Z :=
  Compute (TransitFunctor_CPU sample_delta)
    (new_context inputs_empty_batch heap_empty_batch alloc_ok).

(** The oversized batch with an allocator that serves the request. *)
Definition run_oversized : OpKernelContext Z :=
  Compute (TransitFunctor_CPU sample_delta)
    (new_context inputs_oversized heap_oversized alloc_ok).

(** The inputs of [inputs1] seen with other shapes of the same sizes. *)
Definition inputs1_reshaped : Inputs Tensor :=
  mkInputs (mkTensor [2; 2] 1%positive) (mkTensor [3] 2%positive)
           (mkTensor [1; 3] 3%positive).

(** Buffers longer than the batch: two samples out of three slots. *)
Definition args_prefix : FunctorArgs :=
  mkArgs 4 1%positive 2 2%positive 3%positive 4%positive.

(** Shape inference: a matrix where the grid should be. *)
Definition shapes_matrix_grid : InferenceContext :=
  mkInference (mkInputs (Some [Some 2; Some 2]) (Some [Some 3]) (Some [Some 3]))
              None.

(** Shape inference: fully known shapes. *)
Definition shapes_known : InferenceContext :=
  mkInference (mkInputs (Some [Some 4]) (Some [Some 3]) (Some [Some 3])) None.

(** Three samples, sizes equal, and an allocator that is out of memory. *)
Definition run_alloc_fail : OpKernelContext Z :=
  Compute (TransitFunctor_CPU sample_delta)
    (new_context inputs1 heap_in alloc_oom).

(** An oversized [z] with an [r] of another size, and an allocator that
    would fail. *)
Definition inputs_oversized_mismatch : Inputs Tensor :=
  mkInputs (mkTensor [4] 1%positive) (mkTensor [2147483648] 2%positive)
           (mkTensor [3] 3%positive).

Definition heap_oversized_mismatch : gmap positive (list Z) :=
  <[1%positive := [10; 9; 8; 7]]>
  (<[2%positive := replicate (Z.to_nat 2147483648) 0]>
  (<[3%positive := [1; 2; 3]]> ∅)).

Definition run_oversized_mismatch : OpKernelContext Z :=
  Compute (TransitFunctor_CPU sample_delta)
    (new_context inputs_oversized_mismatch heap_oversized_mismatch alloc_oom).

(** A second batch on the grid of [heap1]: it shares the sample pair
    [(1, 2)] with the first batch, at another index and among other
    samples. *)
Definition heap4 : gmap positive (list Z) :=
  <[1%positive := [10; 9; 8; 7]]>
  (<[2%positive := [2; 2; 1]]>
  (<[3%positive := [5; 7; 2]]>
  (<[4%positive := [0; 0; 0]]> ∅))).

(** A grid tensor of [2^31] elements. *)
Definition inputs_big_grid : Inputs Tensor :=
  mkInputs (mkTensor [2147483648] 1%positive) (mkTensor [3] 2%positive)
           (mkTensor [3] 3%positive).

Definition heap_big_grid : gmap positive (list Z) :=
  <[1%positive := replicate (Z.to_nat 2147483648) 1]>
  (<[2%positive := [0; 1; 3]]>
  (<[3%positive := [1; 2; 3]]> ∅)).

Definition run_big_grid : OpKernelContext Z :=
  Compute (TransitFunctor_CPU sample_delta)
    (new_context inputs_big_grid heap_big_grid alloc_ok).

(** A call of the functor whose output pointer is the grid pointer. *)
Definition heap_aliased : gmap positive (list Z) :=
  <[1%positive := [10; 9; 8]]>
  (<[2%positive := [0; 0; 0]]>
  (<[3%positive := [2; 2; 2]]> ∅)).

Definition args_aliased : FunctorArgs :=
  mkArgs 0 1%positive 3 2%positive 3%positive 1%positive.

Definition heap3 : gmap positive (list Z) :=
  <[1%positive := [10; 9; 8; 7]]>
  (<[2%positive := [3; 0; 1]]>
  (<[3%positive := [3; 1; 2]]>
  (<[4%positive := [0; 0; 0]]> ∅))).

End Examples.

(** * Properties *)

(** ** Machine integers *)

Lemma static_cast_int_small (x : Z) :
  - 2 ^ 31 ≤ x ≤ kint32max → static_cast_int x = x.
Proof.
  unfold static_cast_int, kint32max. intros Hx.
  rewrite Z.mod_small; lia.
Qed.

Lemma static_cast_int_range (x : Z) :
  - 2 ^ 31 ≤ static_cast_int x ≤ kint32max.
Proof.
  unfold static_cast_int, kint32max.
  pose proof (Z.mod_pos_bound (x + 2 ^ 31) (2 ^ 32)). lia.
Qed.

Lemma int_incr_small (i : Z) : 0 ≤ i < kint32max → int_incr i = i + 1.
Proof.
  intros Hi. unfold int_incr. apply static_cast_int_small.
  unfold kint32max in *. lia.
Qed.

Section FunctorProofs.

Context {T : Type}.
Variable compute_delta : Z → list T → T → T → T.

(** ** One call of the functor, from a heap where the four pointers
    designate live buffers and the output is not the grid *)
Section OneCall.

Variable a : FunctorArgs.
Variable m : gmap positive (list T).
Variables g zs rs ds : list T.
Hypothesis Hgrid : m !! a_grid a = Some g.
Hypothesis Hz : m !! a_z a = Some zs.
Hypothesis Hr : m !! a_r a = Some rs.
Hypothesis Hdelta : m !! a_delta a = Some ds.
Hypothesis Hne : a_delta a ≠ a_grid a.

Local Abbreviation f := (compute_delta (a_grid_size a) g).

(** Reading [p[k]] while the output buffer holds [l]: as long as slot [k]
    of the output is untouched, the value is the initial one, also when [p]
    is the output buffer itself. *)
Lemma load_during (p : buffer) (ps l : list T) (k : nat) :
  m !! p = Some ps →
  l !! k = ds !! k →
  load (<[a_delta a := l]> m) p (Z.of_nat k) = ps !! k.
Proof.
  intros Hp Hk. unfold load.
  destruct (decide (a_delta a = p)) as [<- | Hd].
  - rewrite lookup_insert_eq.
    assert (ps = ds) as -> by congruence.
    destruct (Z.leb_spec 0 (Z.of_nat k)); [| lia].
    by rewrite Nat2Z.id.
  - rewrite lookup_insert_ne, Hp by done.
    destruct (Z.leb_spec 0 (Z.of_nat k)); [| lia].
    by rewrite Nat2Z.id.
Qed.

Lemma body_step (l : list T) (k : nat) (zi ri : T) :
  length l = length ds →
  l !! k = ds !! k →
  zs !! k = Some zi → rs !! k = Some ri →
  (k < length ds)%nat →
  body compute_delta a (Z.of_nat k) (<[a_delta a := l]> m)
  = Some (<[a_delta a := <[k := f zi ri]> l]> m).
Proof.
  intros Hlen Hk Hzi Hri Hlt. unfold body.
  rewrite (load_during _ zs), (load_during _ rs), Hzi, Hri by done.
  rewrite lookup_insert_ne, Hgrid by done.
  unfold store. rewrite lookup_insert_eq.
  destruct (Z.leb_spec 0 (Z.of_nat k)); [| lia].
  destruct (Z.ltb_spec (Z.of_nat k) (Z.of_nat (length l))); [| lia].
  simpl. by rewrite insert_insert_eq, Nat2Z.id.
Qed.

(** The per-sample assignments for a duplicate-free list of indices, in any
    order: each listed slot receives its own [compute_delta]; every other
    slot and every other buffer is left as it was. *)
Lemma run_schedule_spec (sched : list nat) : ∀ l : list T,
  NoDup sched →
  (∀ k, k ∈ sched → (k < length ds)%nat ∧ is_Some (zs !! k) ∧ is_Some (rs !! k)) →
  length l = length ds →
  (∀ k, k ∈ sched → l !! k = ds !! k) →
  ∃ l' : list T,
    run_schedule compute_delta a (Z.of_nat <$> sched) (<[a_delta a := l]> m)
    = Some (<[a_delta a := l']> m)
    ∧ length l' = length ds
    ∧ (∀ k, k ∈ sched →
         ∃ zi ri, zs !! k = Some zi ∧ rs !! k = Some ri ∧ l' !! k = Some (f zi ri))
    ∧ (∀ k, k ∉ sched → l' !! k = l !! k).
Proof.
  induction sched as [| k sched IH]; intros l Hnd Hin Hlen Hun.
  - exists l. simpl. split_and!; [done | done | | done].
    intros k Hk. by apply elem_of_nil in Hk.
  - apply NoDup_cons in Hnd as [Hk Hnd].
    destruct (Hin k) as (Hlt & [zi Hzi] & [ri Hri]); [apply elem_of_cons; auto |].
    destruct (IH (<[k := f zi ri]> l)) as (l' & Hrun & Hlen' & Hset & Hrest).
    + done.
    + intros j Hj. apply Hin, elem_of_cons. auto.
    + by rewrite length_insert.
    + intros j Hj. rewrite list_lookup_insert_ne by (intros ->; done).
      apply Hun, elem_of_cons. auto.
    + exists l'. simpl.
      rewrite (body_step l k zi ri)
        by (try done; apply Hun, elem_of_cons; auto).
      split_and!; [done | done | |].
      * intros j [-> | Hj]%elem_of_cons; [| by apply Hset].
        exists zi, ri. split_and!; [done | done |].
        rewrite Hrest by done.
        apply list_lookup_insert_eq. lia.
      * intros j Hj. apply not_elem_of_cons in Hj as [Hjk Hj].
        rewrite Hrest by done.
        by apply list_lookup_insert_ne.
Qed.

(** A schedule that lists every index below [n] once writes the batch into
    the first [n] slots of the output. *)
Lemma run_schedule_complete (n : nat) (sched : list nat) :
  sched ≡ₚ seq 0 n →
  (n ≤ length zs)%nat → (n ≤ length rs)%nat → (n ≤ length ds)%nat →
  run_schedule compute_delta a (Z.of_nat <$> sched) m
  = Some (<[a_delta a :=
             batch compute_delta (a_grid_size a) g (take n zs) (take n rs)
             ++ drop n ds]> m).
Proof.
  intros Hperm Hnz Hnr Hnd.
  assert (Hmem : ∀ k, k ∈ sched ↔ (k < n)%nat).
  { intros k. rewrite Hperm, elem_of_seq. lia. }
  destruct (run_schedule_spec sched ds) as (l' & Hrun & Hlen & Hset & Hrest).
  - rewrite Hperm. apply NoDup_seq.
  - intros k Hk%Hmem. split_and!; [lia | |]; apply lookup_lt_is_Some; lia.
  - done.
  - done.
  - rewrite insert_id in Hrun by done. rewrite Hrun. do 2 f_equal.
    assert (Hb : length (batch compute_delta (a_grid_size a) g
                           (take n zs) (take n rs)) = n).
    { unfold batch. rewrite length_zip_with, !length_take. lia. }
    apply list_eq. intros k.
    destruct (decide (k < n)%nat) as [Hk | Hk].
    + destruct (Hset k) as (zi & ri & Hzi & Hri & ->); [by apply Hmem |].
      rewrite lookup_app_l by lia. unfold batch.
      rewrite lookup_zip_with, !lookup_take_lt, Hzi, Hri by done. done.
    + rewrite Hrest by (rewrite Hmem; done).
      rewrite lookup_app_r, Hb, lookup_drop by lia.
      f_equal. lia.
Qed.

End OneCall.

(** The sequential loop carries out the schedule [k, k+1, ..., size-1]; the
    counter never wraps because it stays below [size]. *)
Lemma for_loop_schedule (a : FunctorArgs) (cnt : nat) :
  ∀ (k : nat) (m : gmap positive (list T)),
  a_size a = Z.of_nat (k + cnt) → a_size a ≤ kint32max →
  for_loop compute_delta a cnt (Z.of_nat k) m
  = match run_schedule compute_delta a (Z.of_nat <$> seq k cnt) m with
    | Some m' => Done m'
    | None => Crash Undefined
    end.
Proof.
  induction cnt as [| cnt IH]; intros k m Hsize Hmax; simpl.
  - destruct (Z.ltb_spec (Z.of_nat k) (a_size a)); [lia | done].
  - destruct (Z.ltb_spec (Z.of_nat k) (a_size a)); [| lia].
    destruct (body compute_delta a (Z.of_nat k) m) as [m' |]; [| done].
    rewrite int_incr_small by lia.
    replace (Z.of_nat k + 1) with (Z.of_nat (S k)) by lia.
    apply IH; lia.
Qed.

(** The sequential functor is the parallel one run in index order. *)
Lemma TransitFunctor_CPU_sequential (a : FunctorArgs) (m : gmap positive (list T)) :
  a_size a ≤ kint32max →
  TransitFunctor_CPU compute_delta a m
  = TransitFunctor_GPU compute_delta (indices (Z.to_nat (a_size a))) a m.
Proof.
  intros Hmax. unfold TransitFunctor_CPU, TransitFunctor_GPU, indices.
  destruct (decide (0 ≤ a_size a)) as [Hpos | Hneg].
  - apply (for_loop_schedule a (Z.to_nat (a_size a)) 0%nat m); lia.
  - replace (Z.to_nat (a_size a)) with 0%nat by lia. simpl.
    destruct (Z.ltb_spec 0 (a_size a)); [lia | done].
Qed.

(** The loop never runs out of fuel. *)
Lemma TransitFunctor_CPU_fuel (a : FunctorArgs) (m : gmap positive (list T)) :
  a_size a ≤ kint32max →
  TransitFunctor_CPU compute_delta a m ≠ Crash OutOfFuel.
Proof.
  intros Hmax. rewrite TransitFunctor_CPU_sequential by done.
  unfold TransitFunctor_GPU. by destruct (run_schedule _ _ _ _).
Qed.

(** The result of any complete schedule under [functor_pre]. *)
Lemma TransitFunctor_GPU_result (a : FunctorArgs) (m : gmap positive (list T))
    (g zs rs ds : list T) (sched : list Z) :
  functor_pre a m g zs rs ds →
  sched ≡ₚ indices (Z.to_nat (a_size a)) →
  TransitFunctor_GPU compute_delta sched a m
  = Done (<[a_delta a := batch compute_delta (a_grid_size a) g zs rs]> m).
Proof.
  intros (Hg & Hz & Hr & Hd & Hlz & Hlr & Hld & Hmax & Hne) Hperm.
  unfold indices in Hperm.
  apply Permutation_map_inv in Hperm as (p & -> & Hp). symmetry in Hp.
  unfold TransitFunctor_GPU.
  change (map Z.of_nat p) with (Z.of_nat <$> p).
  rewrite (run_schedule_complete a m g zs rs ds Hg Hz Hr Hd Hne
             (Z.to_nat (a_size a)) p) by (done || lia).
  rewrite !take_ge, drop_ge, app_nil_r by lia. done.
Qed.

Lemma TransitFunctor_CPU_result (a : FunctorArgs) (m : gmap positive (list T))
    (g zs rs ds : list T) :
  functor_pre a m g zs rs ds →
  TransitFunctor_CPU compute_delta a m
  = Done (<[a_delta a := batch compute_delta (a_grid_size a) g zs rs]> m).
Proof.
  intros Hpre. rewrite TransitFunctor_CPU_sequential by apply Hpre.
  by apply (TransitFunctor_GPU_result a m g zs rs ds).
Qed.

(** The body writes the output buffer only. *)
Lemma body_frame (a : FunctorArgs) (i : Z) (m m' : gmap positive (list T)) :
  body compute_delta a i m = Some m' →
  ∀ b, b ≠ a_delta a → m' !! b = m !! b.
Proof.
  unfold body, store. intros Hbody b Hb.
  destruct (load m (a_z a) i); [| done].
  destruct (load m (a_r a) i); [| done].
  destruct (m !! a_grid a); [| done].
  destruct (m !! a_delta a); [| done].
  destruct ((0 <=? i) && (i <? Z.of_nat (length l0))); [| done].
  injection Hbody as <-. by rewrite lookup_insert_ne.
Qed.

Lemma for_loop_frame (a : FunctorArgs) (fuel : nat) :
  ∀ (i : Z) (m m' : gmap positive (list T)),
  for_loop compute_delta a fuel i m = Done m' →
  ∀ b, b ≠ a_delta a → m' !! b = m !! b.
Proof.
  induction fuel as [| fuel IH]; intros i m m' Hrun b Hb; simpl in Hrun.
  - destruct (i <? a_size a); [done |]. by injection Hrun as <-.
  - destruct (i <? a_size a); [| by injection Hrun as <-].
    destruct (body compute_delta a i m) as [m1 |] eqn:Hbody; [| done].
    rewrite (IH _ _ _ Hrun b Hb). by apply (body_frame a i).
Qed.

End FunctorProofs.

(** ** The batch evaluator *)

(** C1.  A call of the sequential functor on a grid buffer, sample buffers
    [z] and [r] of [size] elements and an output buffer of [size] elements
    (distinct from the grid) returns; afterwards [delta[i]] is
    [compute_delta(grid_size, grid, z[i], r[i])] for every [i] in
    [[0, size)], the output has no other element, and every other buffer
    is as before. *)
Theorem TransitFunctor_CPU_writes_delta {T : Type}
    (compute_delta : Z → list T → T → T → T)
    (a : FunctorArgs) (m : gmap positive (list T)) (g zs rs ds : list T) :
  functor_pre a m g zs rs ds →
  ∃ (m' : gmap positive (list T)) (out : list T),
    TransitFunctor_CPU compute_delta a m = Done m'
    ∧ m' !! a_delta a = Some out
    ∧ Z.of_nat (length out) = a_size a
    ∧ (∀ i : nat, Z.of_nat i < a_size a →
         ∃ zi ri, zs !! i = Some zi ∧ rs !! i = Some ri
                  ∧ out !! i = Some (compute_delta (a_grid_size a) g zi ri))
    ∧ (∀ b, b ≠ a_delta a → m' !! b = m !! b).
Proof.
  intros Hpre.
  pose proof (TransitFunctor_CPU_result compute_delta a m g zs rs ds Hpre) as Hrun.
  destruct Hpre as (Hg & Hz & Hr & Hd & Hlz & Hlr & Hld & Hmax & Hne).
  eexists _, _. split; [exact Hrun |].
  split_and!.
  - apply lookup_insert_eq.
  - unfold batch. rewrite length_zip_with. lia.
  - intros i Hi.
    destruct (lookup_lt_is_Some_2 zs i) as [zi Hzi]; [lia |].
    destruct (lookup_lt_is_Some_2 rs i) as [ri Hri]; [lia |].
    exists zi, ri. split_and!; [done | done |].
    unfold batch. by rewrite lookup_zip_with, Hzi, Hri.
  - intros b Hb. by rewrite lookup_insert_ne.
Qed.

Lemma TransitFunctor_CPU_writes_delta_witness :
  functor_pre Examples.args1 Examples.heap1 [10; 9; 8; 7] [0; 1; 3] [1; 2; 3] [0; 0; 0]
  ∧ ∃ (m' : gmap positive (list Z)) (out : list Z),
      TransitFunctor_CPU Examples.sample_delta Examples.args1 Examples.heap1 = Done m'
      ∧ m' !! 4%positive = Some out
      ∧ Z.of_nat (length out) = 3
      ∧ (∀ i : nat, Z.of_nat i < 3 →
           ∃ zi ri, [0; 1; 3] !! i = Some zi ∧ [1; 2; 3] !! i = Some ri
                    ∧ out !! i = Some (Examples.sample_delta 4 [10; 9; 8; 7] zi ri))
      ∧ (∀ b, b ≠ 4%positive → m' !! b = Examples.heap1 !! b).
Proof.
  assert (Hpre : functor_pre Examples.args1 Examples.heap1
                   [10; 9; 8; 7] [0; 1; 3] [1; 2; 3] [0; 0; 0]).
  { unfold functor_pre. split_and!; try reflexivity; vm_compute; congruence. }
  split; [exact Hpre |].
  exact (TransitFunctor_CPU_writes_delta Examples.sample_delta Examples.args1
           Examples.heap1 _ _ _ _ Hpre).
Defined.

(** The model run on the first example: three samples, three writes. *)
Example TransitFunctor_CPU_example :
  TransitFunctor_CPU Examples.sample_delta Examples.args1 Examples.heap1
  = Done (<[4%positive := [14; 22; 25]]> Examples.heap1).
Proof. vm_compute. reflexivity. Qed.

(** C6.  Under the preconditions of a call, the sequential functor and the
    data-parallel one, whatever the order [sched] in which its lanes
    complete the samples [0 .. size-1], both return and leave the same
    heap, hence the same [delta]. *)
Theorem device_equivalence {T : Type}
    (compute_delta : Z → list T → T → T → T)
    (a : FunctorArgs) (m : gmap positive (list T)) (g zs rs ds : list T)
    (sched : list Z) :
  functor_pre a m g zs rs ds →
  sched ≡ₚ indices (Z.to_nat (a_size a)) →
  ∃ m' : gmap positive (list T),
    TransitFunctor_CPU compute_delta a m = Done m'
    ∧ TransitFunctor_GPU compute_delta sched a m = Done m'.
Proof.
  intros Hpre Hperm. eexists. split.
  - by apply (TransitFunctor_CPU_result compute_delta a m g zs rs ds).
  - by apply (TransitFunctor_GPU_result compute_delta a m g zs rs ds).
Qed.

Lemma device_equivalence_witness :
  ∃ m' : gmap positive (list Z),
    TransitFunctor_CPU Examples.sample_delta Examples.args1 Examples.heap1 = Done m'
    ∧ TransitFunctor_GPU Examples.sample_delta [2; 0; 1] Examples.args1
        Examples.heap1 = Done m'.
Proof.
  apply (device_equivalence Examples.sample_delta Examples.args1 Examples.heap1
           [10; 9; 8; 7] [0; 1; 3] [1; 2; 3] [0; 0; 0] [2; 0; 1]).
  - unfold functor_pre. split_and!; try reflexivity; vm_compute; congruence.
  - change (indices (Z.to_nat (a_size Examples.args1))) with [0; 1; 2].
    apply (Permutation_app_comm [2] [0; 1]).
Defined.

(** C7.  Two calls on the same grid contents both return, and each
    output element is determined by its own sample pair alone: whenever
    sample [i] of the second call is sample [j] of the first
    ([z'[i] = z[j]], [r'[i] = r[j]]), output [i] of the second call is
    output [j] of the first, whatever the other samples of either call
    are.  In particular, when the second call is on the sample arrays of
    the first reordered by a permutation [p] of the indices, its output is
    the first output reordered by [p] ([delta'[i] = delta[p(i)]]). *)
Theorem TransitFunctor_CPU_permutation {T : Type}
    (compute_delta : Z → list T → T → T → T)
    (a a' : FunctorArgs) (m m' : gmap positive (list T))
    (g zs rs ds zs' rs' ds' : list T) :
  functor_pre a m g zs rs ds →
  functor_pre a' m' g zs' rs' ds' →
  a_grid_size a' = a_grid_size a →
  ∃ out out' : list T,
    TransitFunctor_CPU compute_delta a m = Done (<[a_delta a := out]> m)
    ∧ TransitFunctor_CPU compute_delta a' m' = Done (<[a_delta a' := out']> m')
    ∧ (∀ i j : nat,
         zs' !! i = zs !! j → rs' !! i = rs !! j → out' !! i = out !! j)
    ∧ (∀ p : list nat,
         a_size a' = a_size a →
         p ≡ₚ seq 0 (Z.to_nat (a_size a)) →
         (∀ i j, p !! i = Some j → zs' !! i = zs !! j ∧ rs' !! i = rs !! j) →
         length out' = length out
         ∧ ∀ i j, p !! i = Some j → out' !! i = out !! j).
Proof.
  intros Hpre Hpre' Hgs.
  exists (batch compute_delta (a_grid_size a) g zs rs),
         (batch compute_delta (a_grid_size a') g zs' rs').
  assert (Hown : ∀ i j : nat,
            zs' !! i = zs !! j → rs' !! i = rs !! j →
            batch compute_delta (a_grid_size a') g zs' rs' !! i
            = batch compute_delta (a_grid_size a) g zs rs !! j).
  { intros i j Hzi Hri. unfold batch.
    by rewrite !lookup_zip_with, Hzi, Hri, Hgs. }
  split_and!.
  - by apply TransitFunctor_CPU_result with (ds := ds).
  - by apply TransitFunctor_CPU_result with (ds := ds').
  - exact Hown.
  - intros p Hsz Hperm Hsel. split.
    + destruct Hpre as (_ & _ & _ & _ & Hlz & Hlr & _).
      destruct Hpre' as (_ & _ & _ & _ & Hlz' & Hlr' & _).
      unfold batch. rewrite !length_zip_with. lia.
    + intros i j Hij. destruct (Hsel i j Hij) as [Hzi Hri]. by apply Hown.
Qed.

Lemma TransitFunctor_CPU_permutation_witness :
  (∃ out out' : list Z,
     TransitFunctor_CPU Examples.sample_delta Examples.args1 Examples.heap1
     = Done (<[4%positive := out]> Examples.heap1)
     ∧ TransitFunctor_CPU Examples.sample_delta Examples.args1 Examples.heap3
       = Done (<[4%positive := out']> Examples.heap3)
     ∧ length out' = length out
     ∧ ∀ i j, Examples.perm1 !! i = Some j → out' !! i = out !! j)
  ∧ (∃ out out' : list Z,
       TransitFunctor_CPU Examples.sample_delta Examples.args1 Examples.heap1
       = Done (<[4%positive := out]> Examples.heap1)
       ∧ TransitFunctor_CPU Examples.sample_delta Examples.args1 Examples.heap4
         = Done (<[4%positive := out']> Examples.heap4)
       ∧ out' !! 2%nat = out !! 1%nat).
Proof.
  assert (Hpre1 : functor_pre Examples.args1 Examples.heap1
                    [10; 9; 8; 7] [0; 1; 3] [1; 2; 3] [0; 0; 0]).
  { unfold functor_pre. split_and!; try reflexivity; vm_compute; congruence. }
  assert (Hpre3 : functor_pre Examples.args1 Examples.heap3
                    [10; 9; 8; 7] [3; 0; 1] [3; 1; 2] [0; 0; 0]).
  { unfold functor_pre. split_and!; try reflexivity; vm_compute; congruence. }
  assert (Hpre4 : functor_pre Examples.args1 Examples.heap4
                    [10; 9; 8; 7] [2; 2; 1] [5; 7; 2] [0; 0; 0]).
  { unfold functor_pre. split_and!; try reflexivity; vm_compute; congruence. }
  split.
  - destruct (TransitFunctor_CPU_permutation Examples.sample_delta
                Examples.args1 Examples.args1 Examples.heap1 Examples.heap3
                _ _ _ _ _ _ _ Hpre1 Hpre3 eq_refl)
      as (out & out' & Hrun & Hrun' & _ & Hperm).
    exists out, out'. split; [exact Hrun |]. split; [exact Hrun' |].
    apply (Hperm Examples.perm1).
    + reflexivity.
    + apply (Permutation_app_comm [2%nat] [0%nat; 1%nat]).
    + intros [| [| [| i]]] j Hij; simpl in Hij; [| | | done];
        injection Hij as <-; split; reflexivity.
  - destruct (TransitFunctor_CPU_permutation Examples.sample_delta
                Examples.args1 Examples.args1 Examples.heap1 Examples.heap4
                _ _ _ _ _ _ _ Hpre1 Hpre4 eq_refl)
      as (out & out' & Hrun & Hrun' & Hown & _).
    exists out, out'. split; [exact Hrun |]. split; [exact Hrun' |].
    apply Hown; reflexivity.
Defined.

(** No cross-sample leakage: two batches on the same grid that agree on
    sample [i] agree on output [i], whatever the other samples are. *)
Lemma batch_independent {T : Type} (compute_delta : Z → list T → T → T → T)
    (grid_size : Z) (g zs rs zs' rs' : list T) (i : nat) :
  zs' !! i = zs !! i → rs' !! i = rs !! i →
  batch compute_delta grid_size g zs' rs' !! i
  = batch compute_delta grid_size g zs rs !! i.
Proof.
  intros Hz Hr. unfold batch. by rewrite !lookup_zip_with, Hz, Hr.
Qed.

(** C8.  Two calls whose grid, [z] and [r] hold the same values return
    the same output values, whatever the addresses of the buffers, the
    previous contents of the output and the rest of the heap. *)
Theorem TransitFunctor_CPU_deterministic {T : Type}
    (compute_delta : Z → list T → T → T → T)
    (a1 a2 : FunctorArgs) (m1 m2 : gmap positive (list T))
    (g zs rs ds1 ds2 : list T) :
  functor_pre a1 m1 g zs rs ds1 →
  functor_pre a2 m2 g zs rs ds2 →
  a_grid_size a1 = a_grid_size a2 →
  ∃ (out : list T) (m1' m2' : gmap positive (list T)),
    TransitFunctor_CPU compute_delta a1 m1 = Done m1'
    ∧ TransitFunctor_CPU compute_delta a2 m2 = Done m2'
    ∧ m1' !! a_delta a1 = Some out
    ∧ m2' !! a_delta a2 = Some out.
Proof.
  intros Hpre1 Hpre2 Hgs.
  exists (batch compute_delta (a_grid_size a1) g zs rs). eexists _, _.
  split_and!.
  - by apply TransitFunctor_CPU_result with (ds := ds1).
  - by apply TransitFunctor_CPU_result with (ds := ds2).
  - apply lookup_insert_eq.
  - rewrite Hgs. apply lookup_insert_eq.
Qed.

Lemma TransitFunctor_CPU_deterministic_witness :
  ∃ (out : list Z) (m1' m2' : gmap positive (list Z)),
    TransitFunctor_CPU Examples.sample_delta Examples.args1 Examples.heap1 = Done m1'
    ∧ TransitFunctor_CPU Examples.sample_delta Examples.args2 Examples.heap2 = Done m2'
    ∧ m1' !! 4%positive = Some out
    ∧ m2' !! 8%positive = Some out.
Proof.
  apply (TransitFunctor_CPU_deterministic Examples.sample_delta
           Examples.args1 Examples.args2 Examples.heap1 Examples.heap2
           [10; 9; 8; 7] [0; 1; 3] [1; 2; 3] [0; 0; 0] [5; 5; 5]).
  - unfold functor_pre. split_and!; try reflexivity; vm_compute; congruence.
  - unfold functor_pre. split_and!; try reflexivity; vm_compute; congruence.
  - reflexivity.
Defined.

(** ** The binding kernel *)

Section KernelProofs.

Context {T : Type}.
Implicit Types (F : Functor T) (ins : Inputs Tensor)
  (h : gmap positive (list T)) (al : Allocator T).

(** [Compute] from a new context, check by check. *)
Lemma Compute_cases F ins h al :
  Compute F (new_context ins h al) =
  if negb (NumElements (in_r ins) =? NumElements (in_z ins)) then
    mkContext ins h al
      (InvalidArgument "z and r must have the same number of elements")
      None [] None
  else if negb (ok (alloc_status al)) then
    mkContext ins h al (alloc_status al) None [] None
  else if negb (NumElements (in_z ins) <=? kint32max) then
    mkContext ins (heap (allocated ins h al)) al
      (InvalidArgument "Too many elements in tensor")
      (output0 (allocated ins h al)) [] None
  else call_functor F (allocated ins h al) (kernel_args ins h).
Proof.
  unfold Compute, OP_REQUIRES, OP_REQUIRES_OK, allocate_output, input, nth_input.
  simpl.
  destruct (NumElements (in_r ins) =? NumElements (in_z ins)); [| done].
  simpl. destruct (ok (alloc_status al)) eqn:Hal; simpl.
  - destruct (NumElements (in_z ins) <=? kint32max); done.
  - by rewrite Hal.
Qed.

End KernelProofs.

(** C2.  When [z] and [r] differ in their number of elements, [Compute]
    signals [InvalidArgument] and returns at once: the functor is not
    called, whatever the device, no output is allocated and the heap is as
    it was. *)
Theorem Compute_length_mismatch {T : Type} (F : Functor T)
    (ins : Inputs Tensor) (h : gmap positive (list T)) (al : Allocator T) :
  NumElements (in_r ins) ≠ NumElements (in_z ins) →
  Compute F (new_context ins h al)
  = mkContext ins h al
      (InvalidArgument "z and r must have the same number of elements")
      None [] None
  ∧ code (status (Compute F (new_context ins h al))) = INVALID_ARGUMENT
  ∧ functor_calls (Compute F (new_context ins h al)) = [].
Proof.
  intros Hne. rewrite Compute_cases.
  destruct (Z.eqb_spec (NumElements (in_r ins)) (NumElements (in_z ins)));
    [done |].
  simpl. done.
Qed.

Lemma Compute_length_mismatch_witness :
  NumElements (in_r Examples.inputs_mismatch)
  ≠ NumElements (in_z Examples.inputs_mismatch)
  ∧ code (status Examples.run_mismatch) = INVALID_ARGUMENT
  ∧ functor_calls Examples.run_mismatch = [].
Proof.
  assert (Hne : NumElements (in_r Examples.inputs_mismatch)
                ≠ NumElements (in_z Examples.inputs_mismatch))
    by (vm_compute; congruence).
  split; [exact Hne |].
  exact (proj2 (Compute_length_mismatch
                  (TransitFunctor_CPU Examples.sample_delta)
                  Examples.inputs_mismatch Examples.heap_mismatch
                  Examples.alloc_ok
                  Hne)).
Defined.

(** C3, as the code has it.  [Compute] never looks at the number of grid
    elements: with a grid of zero elements, [z] and [r] of equal size
    within the ceiling and a successful allocation, no error is signalled
    and the functor is called once, with [grid_size = 0]. *)
Theorem Compute_empty_grid {T : Type} (F : Functor T)
    (ins : Inputs Tensor) (h : gmap positive (list T)) (al : Allocator T) :
  NumElements (in_params ins) = 0 →
  NumElements (in_r ins) = NumElements (in_z ins) →
  NumElements (in_z ins) ≤ kint32max →
  ok (alloc_status al) = true →
  status (Compute F (new_context ins h al)) = Status_OK
  ∧ functor_calls (Compute F (new_context ins h al)) = [kernel_args ins h]
  ∧ a_grid_size (kernel_args ins h) = 0.
Proof.
  intros Hgrid Heq Hmax Hal. rewrite Compute_cases, Heq, Z.eqb_refl, Hal.
  destruct (Z.leb_spec (NumElements (in_z ins)) kint32max); [| lia].
  simpl. split_and!.
  - unfold call_functor. by destruct (F _ _).
  - unfold call_functor. by destruct (F _ _).
  - by rewrite Hgrid.
Qed.

Lemma Compute_empty_grid_witness :
  status Examples.run_empty_grid = Status_OK
  ∧ functor_calls Examples.run_empty_grid
    = [kernel_args Examples.inputs_empty_grid Examples.heap_empty_grid]
  ∧ a_grid_size (kernel_args Examples.inputs_empty_grid
                   Examples.heap_empty_grid) = 0.
Proof.
  apply (Compute_empty_grid (TransitFunctor_CPU Examples.sample_delta)
           Examples.inputs_empty_grid Examples.heap_empty_grid Examples.alloc_ok).
  - reflexivity.
  - reflexivity.
  - vm_compute. congruence.
  - reflexivity.
Defined.

(** The inputs of the next lemma are well formed. *)
Lemma inputs_empty_grid_ok :
  tensor_ok Examples.heap_empty_grid (in_params Examples.inputs_empty_grid)
  ∧ tensor_ok Examples.heap_empty_grid (in_z Examples.inputs_empty_grid)
  ∧ tensor_ok Examples.heap_empty_grid (in_r Examples.inputs_empty_grid).
Proof. split_and!; eexists; (split; reflexivity). Qed.

(** C3, as the spec has it, fails: a grid of zero elements, two samples.
    The call ends with status [OK], not [INVALID_ARGUMENT]; the functor
    has been called with [grid_size = 0] and has written both outputs. *)
Lemma empty_grid_reaches_functor :
  NumElements (in_params Examples.inputs_empty_grid) = 0
  ∧ code (status Examples.run_empty_grid) = OK
  ∧ code (status Examples.run_empty_grid) ≠ INVALID_ARGUMENT
  ∧ functor_calls Examples.run_empty_grid
    = [mkArgs 0 1%positive 2 2%positive 3%positive 4%positive]
  ∧ aborted Examples.run_empty_grid = None
  ∧ heap Examples.run_empty_grid !! 4%positive = Some [0; 0].
Proof. vm_compute. split_and!; (reflexivity || discriminate). Qed.

(** C4, as the code has it.  When [z] has more than [kint32max] elements
    the functor is never called and the call ends in an error.  The sizes
    of [z] and [r] are compared first, then the output is allocated, then
    the ceiling is tested: the error is the kernel's [InvalidArgument] for
    unequal sizes when [z] and [r] differ in size, whatever the allocator
    would do; it is [InvalidArgument("Too many elements in tensor")]
    when they agree and the allocation succeeds; and it is the allocator's
    own error when they agree and the allocation fails. *)
Theorem Compute_oversized {T : Type} (F : Functor T)
    (ins : Inputs Tensor) (h : gmap positive (list T)) (al : Allocator T) :
  kint32max < NumElements (in_z ins) →
  functor_calls (Compute F (new_context ins h al)) = []
  ∧ ok (status (Compute F (new_context ins h al))) = false
  ∧ (NumElements (in_r ins) ≠ NumElements (in_z ins) →
     status (Compute F (new_context ins h al))
     = InvalidArgument "z and r must have the same number of elements")
  ∧ (NumElements (in_r ins) = NumElements (in_z ins) →
     ok (alloc_status al) = true →
     status (Compute F (new_context ins h al))
     = InvalidArgument "Too many elements in tensor")
  ∧ (NumElements (in_r ins) = NumElements (in_z ins) →
     ok (alloc_status al) = false →
     status (Compute F (new_context ins h al)) = alloc_status al)
  ∧ (NumElements (in_r ins) ≠ NumElements (in_z ins)
     ∨ ok (alloc_status al) = true →
     code (status (Compute F (new_context ins h al))) = INVALID_ARGUMENT).
Proof.
  intros Hbig. rewrite Compute_cases.
  destruct (Z.eqb_spec (NumElements (in_r ins)) (NumElements (in_z ins)))
    as [Heq | Hne]; simpl.
  2:{ split_and!; intros; (done || congruence). }
  destruct (ok (alloc_status al)) eqn:Hal; simpl.
  - destruct (Z.leb_spec (NumElements (in_z ins)) kint32max); [lia |].
    simpl. split_and!; intros; (done || congruence).
  - split_and!; intros; try (done || congruence).
    destruct H as [Hne | Hok]; [done | congruence].
Qed.

Lemma Compute_oversized_witness :
  (kint32max < NumElements (in_z Examples.inputs_oversized)
   ∧ functor_calls Examples.run_oversized_oom = []
   ∧ ok (status Examples.run_oversized_oom) = false
   ∧ status Examples.run_oversized_oom = alloc_status Examples.alloc_oom)
  ∧ (kint32max < NumElements (in_z Examples.inputs_oversized_mismatch)
     ∧ functor_calls Examples.run_oversized_mismatch = []
     ∧ status Examples.run_oversized_mismatch
       = InvalidArgument "z and r must have the same number of elements").
Proof.
  assert (Hbig : kint32max < NumElements (in_z Examples.inputs_oversized))
    by (vm_compute; reflexivity).
  assert (Hbig' : kint32max
                  < NumElements (in_z Examples.inputs_oversized_mismatch))
    by (vm_compute; reflexivity).
  split.
  - split; [exact Hbig |].
    pose proof (Compute_oversized (TransitFunctor_CPU Examples.sample_delta)
                  Examples.inputs_oversized Examples.heap_oversized
                  Examples.alloc_oom Hbig)
      as (Hcalls & Hok & _ & _ & Hal & _).
    exact (conj Hcalls (conj Hok (Hal eq_refl eq_refl))).
  - split; [exact Hbig' |].
    pose proof (Compute_oversized (TransitFunctor_CPU Examples.sample_delta)
                  Examples.inputs_oversized_mismatch
                  Examples.heap_oversized_mismatch
                  Examples.alloc_oom Hbig')
      as (Hcalls & _ & Hmis & _).
    split; [exact Hcalls |].
    apply Hmis. vm_compute. congruence.
Defined.

(** The inputs of the next lemma are well formed: each buffer is as long
    as the shape of its tensor says. *)
Lemma inputs_oversized_ok :
  tensor_ok Examples.heap_oversized (in_params Examples.inputs_oversized)
  ∧ tensor_ok Examples.heap_oversized (in_z Examples.inputs_oversized)
  ∧ tensor_ok Examples.heap_oversized (in_r Examples.inputs_oversized).
Proof.
  split_and!; eexists; (split; [reflexivity |]).
  - reflexivity.
  - rewrite length_replicate, Z2Nat.id by lia. reflexivity.
  - rewrite length_replicate, Z2Nat.id by lia. reflexivity.
Qed.

(** C4, as the spec has it, fails: [z] and [r] of [2^31] elements and an
    allocator that is out of memory.  The error signalled is the
    allocator's [RESOURCE_EXHAUSTED], not [INVALID_ARGUMENT]. *)
Lemma oversized_batch_allocation_error :
  kint32max < NumElements (in_z Examples.inputs_oversized)
  ∧ code (status Examples.run_oversized_oom) = RESOURCE_EXHAUSTED
  ∧ code (status Examples.run_oversized_oom) ≠ INVALID_ARGUMENT.
Proof.
  unfold Examples.run_oversized_oom. rewrite Compute_cases.
  split_and!; [reflexivity | reflexivity | discriminate].
Qed.

(** The shape function, when it succeeds, gives the output the shape of
    input 1, which is [z]. *)
Lemma TransitShapeFn_output (c c' : InferenceContext) (st : Status) :
  TransitShapeFn c = (st, c') → ok st = true →
  ic_output0 c' = Some (ic_input c 1).
Proof.
  unfold TransitShapeFn. intros Hrun Hok.
  destruct (WithRank (ic_input c 0) 1) as [st1 shape1].
  destruct (ok st1) eqn:H1; simpl in Hrun; [| congruence].
  destruct (Merge (ic_input c 1) (ic_input c 2)) as [st2 shape2].
  destruct (ok st2) eqn:H2; simpl in Hrun; [| congruence].
  by injection Hrun as <- <-.
Qed.

(** C5.  A call of [Compute] that ends with status [OK] has allocated an
    output tensor whose shape is the shape of [z]; it has as many
    elements as [z], and as [r].  The shape function registered with the
    operation agrees: when it succeeds, the inferred output shape is the
    one of input [z]. *)
Theorem Compute_output_shape {T : Type} (F : Functor T)
    (ins : Inputs Tensor) (h : gmap positive (list T)) (al : Allocator T) :
  (code (status (Compute F (new_context ins h al))) = OK →
   ∃ t : Tensor,
     output0 (Compute F (new_context ins h al)) = Some t
     ∧ shape t = shape (in_z ins)
     ∧ NumElements t = NumElements (in_z ins)
     ∧ NumElements t = NumElements (in_r ins))
  ∧ (∀ (c c' : InferenceContext) (st : Status),
       TransitShapeFn c = (st, c') → ok st = true →
       ic_output0 c' = Some (ic_input c 1)).
Proof.
  split; [| exact TransitShapeFn_output].
  rewrite Compute_cases.
  destruct (Z.eqb_spec (NumElements (in_r ins)) (NumElements (in_z ins)))
    as [Heq | Hne]; simpl; [| done].
  destruct (ok (alloc_status al)) eqn:Hal; simpl.
  - destruct (NumElements (in_z ins) <=? kint32max); simpl; [| done].
    intros _. exists (mkTensor (shape (in_z ins)) (fresh (dom h))).
    split_and!; [| done | done | done].
    unfold call_functor. by destruct (F _ _).
  - intros Hcode. unfold ok in Hal.
    by rewrite bool_decide_eq_false in Hal.
Qed.

Lemma Compute_output_shape_witness :
  code (status Examples.run1) = OK
  ∧ ∃ t : Tensor,
      output0 Examples.run1 = Some t
      ∧ shape t = [3]
      ∧ NumElements t = 3
      ∧ NumElements t = NumElements (in_r Examples.inputs1).
Proof.
  assert (Hok : code (status Examples.run1) = OK) by (vm_compute; reflexivity).
  split; [exact Hok |].
  exact (proj1 (Compute_output_shape (TransitFunctor_CPU Examples.sample_delta)
                  Examples.inputs1 Examples.heap_in Examples.alloc_ok) Hok).
Defined.

(** The kernel run on the first example. *)
Example Compute_example :
  status Examples.run1 = Status_OK
  ∧ functor_calls Examples.run1
    = [mkArgs 4 1%positive 3 2%positive 3%positive 4%positive]
  ∧ heap Examples.run1 !! 4%positive = Some [14; 22; 25]
  ∧ aborted Examples.run1 = None.
Proof. vm_compute. split_and!; reflexivity. Qed.

(** C10, as the code has it.  The ceiling is tested on [size] only.
    Whether [Compute] calls the functor is decided by three tests, none of
    which reads the number of grid elements: equal sizes of [z] and [r], a
    successful allocation, and [size <= kint32max].  For every call that
    passes them the functor is called once, whatever the grid holds, with
    [grid_size = static_cast<int>(grid_tensor.NumElements())], which for a
    count above [kint32max] is not the count, and for [2^31] elements is
    [-2^31]. *)
Theorem Compute_ceiling_on_size_only {T : Type} (F : Functor T)
    (ins : Inputs Tensor) (h : gmap positive (list T)) (al : Allocator T) :
  functor_calls (Compute F (new_context ins h al))
  = (if (NumElements (in_r ins) =? NumElements (in_z ins))
        && ok (alloc_status al)
        && (NumElements (in_z ins) <=? kint32max)
     then [kernel_args ins h] else [])
  ∧ (NumElements (in_z ins) ≤ kint32max →
     NumElements (in_r ins) = NumElements (in_z ins) →
     ok (alloc_status al) = true →
     functor_calls (Compute F (new_context ins h al)) = [kernel_args ins h])
  ∧ a_grid_size (kernel_args ins h)
    = static_cast_int (NumElements (in_params ins))
  ∧ (kint32max < NumElements (in_params ins) →
     a_grid_size (kernel_args ins h) ≠ NumElements (in_params ins))
  ∧ (NumElements (in_params ins) = 2 ^ 31 →
     a_grid_size (kernel_args ins h) = - 2 ^ 31).
Proof.
  assert (Hcalls :
    functor_calls (Compute F (new_context ins h al))
    = (if (NumElements (in_r ins) =? NumElements (in_z ins))
          && ok (alloc_status al)
          && (NumElements (in_z ins) <=? kint32max)
       then [kernel_args ins h] else [])).
  { rewrite Compute_cases.
    destruct (NumElements (in_r ins) =? NumElements (in_z ins)); simpl; [| done].
    destruct (ok (alloc_status al)); simpl; [| done].
    destruct (NumElements (in_z ins) <=? kint32max); simpl; [| done].
    unfold call_functor. by destruct (F _ _). }
  split_and!.
  - exact Hcalls.
  - intros Hmax Heq Hal. rewrite Hcalls, Heq, Z.eqb_refl, Hal.
    by destruct (Z.leb_spec (NumElements (in_z ins)) kint32max); [| lia].
  - done.
  - intros Hbig. simpl.
    pose proof (static_cast_int_range (NumElements (in_params ins))). lia.
  - intros Hn. simpl. rewrite Hn. reflexivity.
Qed.

Lemma Compute_ceiling_on_size_only_witness :
  kint32max < NumElements (in_params Examples.inputs_big_grid)
  ∧ functor_calls Examples.run_big_grid
    = [kernel_args Examples.inputs_big_grid Examples.heap_big_grid]
  ∧ a_grid_size (kernel_args Examples.inputs_big_grid Examples.heap_big_grid)
    ≠ NumElements (in_params Examples.inputs_big_grid)
  ∧ a_grid_size (kernel_args Examples.inputs_big_grid Examples.heap_big_grid)
    = - 2 ^ 31.
Proof.
  assert (Hbig : kint32max < NumElements (in_params Examples.inputs_big_grid))
    by (vm_compute; reflexivity).
  pose proof (Compute_ceiling_on_size_only
                (TransitFunctor_CPU Examples.sample_delta)
                Examples.inputs_big_grid Examples.heap_big_grid
                Examples.alloc_ok)
    as (_ & Hcalls & _ & Hne & Hneg).
  split_and!.
  - exact Hbig.
  - apply Hcalls; [vm_compute; congruence | reflexivity | reflexivity].
  - exact (Hne Hbig).
  - exact (Hneg eq_refl).
Defined.

(** C10, as it is written, fails: a call with [size = 3], within the
    ceiling, in which [r] has two elements makes no call of the functor;
    nor does a call with [size = 3] and equal sizes whose output cannot be
    allocated. *)
Lemma within_ceiling_without_call :
  NumElements (in_z Examples.inputs_mismatch) = 3
  ∧ NumElements (in_z Examples.inputs_mismatch) ≤ kint32max
  ∧ functor_calls Examples.run_mismatch = []
  ∧ NumElements (in_z Examples.inputs1) ≤ kint32max
  ∧ functor_calls Examples.run_alloc_fail = [].
Proof.
  vm_compute. split_and!; (reflexivity || discriminate).
Qed.

(** A grid of [2^31] elements, in a buffer of that length, passes every
    check and reaches the functor with [grid_size = -2^31]. *)
Example Compute_big_grid_example :
  tensor_ok Examples.heap_big_grid (in_params Examples.inputs_big_grid)
  ∧ code (status Examples.run_big_grid) = OK
  ∧ functor_calls Examples.run_big_grid
    = [mkArgs (-2147483648) 1%positive 3 2%positive 3%positive 4%positive].
Proof.
  split_and!; [| reflexivity | reflexivity].
  eexists. split; [reflexivity |].
  rewrite length_replicate, Z2Nat.id by lia. reflexivity.
Qed.

(** ** The kernel and the functor together *)

(** [Compute] calls the functor within its preconditions: on input tensors
    whose buffers are live and as long as their shapes say, with [z] and
    [r] of equal size within the ceiling and a successful allocation, the
    output buffer is new, so it is none of the inputs, and after the call
    it holds the batch. *)
Lemma Compute_CPU_correct {T : Type} (compute_delta : Z → list T → T → T → T)
    (ins : Inputs Tensor) (h : gmap positive (list T)) (al : Allocator T)
    (g zs rs : list T) :
  h !! data (in_params ins) = Some g →
  h !! data (in_z ins) = Some zs →
  Z.of_nat (length zs) = NumElements (in_z ins) →
  h !! data (in_r ins) = Some rs →
  Z.of_nat (length rs) = NumElements (in_r ins) →
  NumElements (in_r ins) = NumElements (in_z ins) →
  NumElements (in_z ins) ≤ kint32max →
  ok (alloc_status al) = true →
  Compute (TransitFunctor_CPU compute_delta) (new_context ins h al)
  = mkContext ins
      (<[fresh (dom h) :=
           batch compute_delta (static_cast_int (NumElements (in_params ins)))
             g zs rs]> h)
      al Status_OK (Some (mkTensor (shape (in_z ins)) (fresh (dom h))))
      [kernel_args ins h] None.
Proof.
  intros Hg Hz Hlz Hr Hlr Heq Hmax Hal.
  assert (Hfresh : h !! fresh (dom h) = None)
    by apply not_elem_of_dom, is_fresh.
  assert (Hcast : static_cast_int (NumElements (in_z ins)) = NumElements (in_z ins)).
  { apply static_cast_int_small. lia. }
  rewrite Compute_cases, Heq, Z.eqb_refl, Hal.
  destruct (Z.leb_spec (NumElements (in_z ins)) kint32max); [| lia].
  simpl. unfold call_functor.
  rewrite (TransitFunctor_CPU_result compute_delta (kernel_args ins h) _ g zs rs
             (alloc_fill al <$> seq 0 (Z.to_nat (num_elements (shape (in_z ins)))))).
  - simpl. by rewrite insert_insert_eq.
  - unfold functor_pre, allocated, kernel_args. simpl.
    rewrite Hcast.
    split_and!.
    + rewrite lookup_insert_ne by congruence. done.
    + rewrite lookup_insert_ne by congruence. done.
    + rewrite lookup_insert_ne by congruence. done.
    + apply lookup_insert_eq.
    + done.
    + lia.
    + rewrite length_fmap, length_seq. unfold NumElements in *. lia.
    + done.
    + congruence.
Qed.

(** [Compute] on the CPU leaves every buffer that was live before the call
    as it was: the only buffer the functor writes is the new output. *)
Lemma Compute_CPU_frame {T : Type} (compute_delta : Z → list T → T → T → T)
    (ins : Inputs Tensor) (h : gmap positive (list T)) (al : Allocator T)
    (b : buffer) :
  is_Some (h !! b) →
  heap (Compute (TransitFunctor_CPU compute_delta) (new_context ins h al)) !! b
  = h !! b.
Proof.
  intros [l Hb].
  assert (Hfresh : b ≠ fresh (dom h)).
  { intros ->. pose proof (is_fresh (dom h)) as Hnot.
    apply not_elem_of_dom in Hnot. congruence. }
  rewrite Compute_cases.
  destruct (NumElements (in_r ins) =? NumElements (in_z ins)); simpl; [| done].
  destruct (ok (alloc_status al)); simpl; [| done].
  destruct (NumElements (in_z ins) <=? kint32max); simpl.
  - unfold call_functor.
    destruct (TransitFunctor_CPU compute_delta (kernel_args ins h)
                (heap (allocated ins h al))) as [h' | f] eqn:Hrun; simpl.
    + rewrite (for_loop_frame compute_delta _ _ _ _ _ Hrun b) by done.
      simpl. by rewrite lookup_insert_ne.
    + by rewrite lookup_insert_ne.
  - by rewrite lookup_insert_ne.
Qed.

(** C9.  A completed call of the functor changes no buffer but the output:
    in particular the grid buffer, an array of its own, holds after the
    call what it held before.  Under the preconditions of a call the call
    does complete, with the grid contents [g] intact.  And every call the
    kernel makes is of that kind: after [Compute] the buffer of the grid
    tensor holds what it held before. *)
Theorem TransitFunctor_CPU_grid_unchanged {T : Type}
    (compute_delta : Z → list T → T → T → T)
    (a : FunctorArgs) (m : gmap positive (list T)) :
  (∀ m' : gmap positive (list T),
     TransitFunctor_CPU compute_delta a m = Done m' →
     (∀ b, b ≠ a_delta a → m' !! b = m !! b)
     ∧ (a_grid a ≠ a_delta a → m' !! a_grid a = m !! a_grid a))
  ∧ (∀ g zs rs ds : list T,
       functor_pre a m g zs rs ds →
       ∃ m' : gmap positive (list T),
         TransitFunctor_CPU compute_delta a m = Done m'
         ∧ m' !! a_grid a = Some g)
  ∧ (∀ (ins : Inputs Tensor) (al : Allocator T) (g : list T),
       m !! data (in_params ins) = Some g →
       heap (Compute (TransitFunctor_CPU compute_delta) (new_context ins m al))
         !! data (in_params ins) = Some g).
Proof.
  split_and!.
  - intros m' Hrun.
    assert (Hframe : ∀ b, b ≠ a_delta a → m' !! b = m !! b)
      by exact (for_loop_frame compute_delta a _ _ _ _ Hrun).
    split; [exact Hframe | apply Hframe].
  - intros g zs rs ds Hpre. eexists. split.
    + by apply TransitFunctor_CPU_result with (ds := ds).
    + destruct Hpre as (Hg & _ & _ & _ & _ & _ & _ & _ & Hne).
      by rewrite lookup_insert_ne.
  - intros ins al g Hg. by rewrite Compute_CPU_frame.
Qed.

Lemma TransitFunctor_CPU_grid_unchanged_witness :
  (∃ m' : gmap positive (list Z),
     TransitFunctor_CPU Examples.sample_delta Examples.args1 Examples.heap1 = Done m'
     ∧ m' !! 1%positive = Some [10; 9; 8; 7])
  ∧ heap Examples.run1 !! 1%positive = Some [10; 9; 8; 7].
Proof.
  split.
  - apply (proj1 (proj2 (TransitFunctor_CPU_grid_unchanged Examples.sample_delta
                           Examples.args1 Examples.heap1))
             [10; 9; 8; 7] [0; 1; 3] [1; 2; 3] [0; 0; 0]).
    unfold functor_pre. split_and!; try reflexivity; vm_compute; congruence.
  - apply (proj2 (proj2 (TransitFunctor_CPU_grid_unchanged Examples.sample_delta
                           Examples.args1 Examples.heap_in))
             Examples.inputs1 Examples.alloc_ok [10; 9; 8; 7]).
    reflexivity.
Defined.

(** The precondition that the output is not the grid buffer cannot be
    dropped from the statements about the functor: called with the grid
    pointer as output (which [Compute] never does), the loop overwrites
    the grid as it goes, and the three samples, all [(0, 2)], do not get
    the same value. *)
Example TransitFunctor_CPU_aliased_example :
  TransitFunctor_CPU Examples.sample_delta Examples.args_aliased
    Examples.heap_aliased
  = Done (<[1%positive := [20; 40; 40]]> Examples.heap_aliased).
Proof. vm_compute. reflexivity. Qed.

(** * Further properties of the functor *)

Section FunctorBounds.

Context {T : Type}.
Variable compute_delta : Z → list T → T → T → T.
Implicit Types (a : FunctorArgs) (m : gmap positive (list T)).

Lemma load_is_Some m (p : buffer) (i : Z) :
  is_Some (load m p i) ↔ in_bounds m p i.
Proof.
  unfold load, in_bounds. split.
  - intros [x Hx]. destruct (m !! p) as [l |]; [| done].
    destruct (Z.leb_spec 0 i); [| done].
    exists l. split; [done |].
    apply lookup_lt_Some in Hx. lia.
  - intros (l & -> & Hi).
    destruct (Z.leb_spec 0 i); [| lia].
    apply lookup_lt_is_Some. lia.
Qed.

(** The body succeeds exactly when its four accesses are within live
    buffers. *)
Lemma body_is_Some a (i : Z) m :
  is_Some (body compute_delta a i m) ↔ accessible a m i.
Proof.
  unfold accessible. rewrite <- !load_is_Some. unfold body, store. split.
  - intros [m' Hm'].
    destruct (load m (a_z a) i) as [zi |]; [| done].
    destruct (load m (a_r a) i) as [ri |]; [| done].
    destruct (m !! a_grid a) as [g |]; [| done].
    split_and!; [done | done | done |].
    apply load_is_Some.
    destruct (m !! a_delta a) as [l |] eqn:Hd; [| done].
    exists l. split; [done |].
    destruct (Z.leb_spec 0 i); [| done].
    destruct (Z.ltb_spec i (Z.of_nat (length l))); [| done]. lia.
  - intros ([zi ->] & [ri ->] & [g ->] & (l & Hd & Hi)%load_is_Some).
    rewrite Hd.
    destruct (Z.leb_spec 0 i); [| lia].
    destruct (Z.ltb_spec i (Z.of_nat (length l))); [| lia]. done.
Qed.

(** The body keeps the length of every buffer, and creates and frees
    none. *)
Lemma body_lengths a (i : Z) m m' :
  body compute_delta a i m = Some m' →
  ∀ b : buffer, length <$> (m' !! b) = length <$> (m !! b).
Proof.
  unfold body, store. intros Hbody b.
  destruct (load m (a_z a) i) as [zi |]; [| done].
  destruct (load m (a_r a) i) as [ri |]; [| done].
  destruct (m !! a_grid a) as [g |]; [| done].
  destruct (m !! a_delta a) as [l |] eqn:Hd; [| done].
  destruct ((0 <=? i) && (i <? Z.of_nat (length l))); [| done].
  injection Hbody as <-.
  destruct (decide (a_delta a = b)) as [<- | Hb].
  - rewrite lookup_insert_eq, Hd. simpl. by rewrite length_insert.
  - by rewrite lookup_insert_ne.
Qed.

Lemma in_bounds_lengths m m' (p : buffer) (i : Z) :
  (∀ b : buffer, length <$> (m' !! b) = length <$> (m !! b)) →
  in_bounds m' p i ↔ in_bounds m p i.
Proof.
  intros Hlen. unfold in_bounds. specialize (Hlen p).
  split; intros (l & Hl & Hi); rewrite Hl in Hlen.
  - destruct (m !! p) as [l0 |]; [| done]. injection Hlen as Hlen.
    exists l0. split; [done | lia].
  - destruct (m' !! p) as [l0 |]; [| done]. injection Hlen as Hlen.
    exists l0. split; [done | lia].
Qed.

Lemma accessible_lengths a m m' (i : Z) :
  (∀ b : buffer, length <$> (m' !! b) = length <$> (m !! b)) →
  accessible a m' i ↔ accessible a m i.
Proof.
  intros Hlen. unfold accessible.
  rewrite !(in_bounds_lengths m m') by done.
  assert (is_Some (m' !! a_grid a) ↔ is_Some (m !! a_grid a)) as ->; [| done].
  specialize (Hlen (a_grid a)).
  rewrite <- !(fmap_is_Some length). by rewrite Hlen.
Qed.

Lemma run_schedule_lengths a (sched : list Z) :
  ∀ m m', run_schedule compute_delta a sched m = Some m' →
  ∀ b : buffer, length <$> (m' !! b) = length <$> (m !! b).
Proof.
  induction sched as [| i sched IH]; intros m m' Hrun b; simpl in Hrun.
  - by injection Hrun as <-.
  - destruct (body compute_delta a i m) as [m1 |] eqn:Hbody; [| done].
    rewrite (IH _ _ Hrun b). by apply (body_lengths a i).
Qed.

(** A schedule runs to its end exactly when every access of every listed
    iteration is within the buffers as they are at the start. *)
Lemma run_schedule_is_Some a (sched : list Z) :
  ∀ m, is_Some (run_schedule compute_delta a sched m)
       ↔ ∀ i, i ∈ sched → accessible a m i.
Proof.
  induction sched as [| i sched IH]; intros m; simpl.
  - split; [| by eauto]. intros _ i Hi. by apply elem_of_nil in Hi.
  - destruct (body compute_delta a i m) as [m1 |] eqn:Hbody.
    + rewrite IH. split.
      * intros Hall j [-> | Hj]%elem_of_cons.
        -- apply body_is_Some. by rewrite Hbody.
        -- apply (accessible_lengths a m m1); [| by apply Hall].
           by apply (body_lengths a i).
      * intros Hall j Hj.
        apply (accessible_lengths a m m1); [by apply (body_lengths a i) |].
        apply Hall, elem_of_cons. auto.
    + split; [by intros [? ?] |]. intros Hall.
      assert (is_Some (body compute_delta a i m)) as [? ?]; [| congruence].
      apply body_is_Some, Hall, elem_of_cons. auto.
Qed.

Lemma for_loop_lengths a (fuel : nat) :
  ∀ (i : Z) m m', for_loop compute_delta a fuel i m = Done m' →
  ∀ b : buffer, length <$> (m' !! b) = length <$> (m !! b).
Proof.
  induction fuel as [| fuel IH]; intros i m m' Hrun b; simpl in Hrun.
  - destruct (i <? a_size a); [done |]. by injection Hrun as <-.
  - destruct (i <? a_size a); [| by injection Hrun as <-].
    destruct (body compute_delta a i m) as [m1 |] eqn:Hbody; [| done].
    rewrite (IH _ _ _ Hrun b). by apply (body_lengths a i).
Qed.

(** With no sample to process the loop is not entered: no pointer is
    dereferenced and the heap is returned as it is. *)
Lemma TransitFunctor_CPU_no_samples a m :
  a_size a ≤ 0 → TransitFunctor_CPU compute_delta a m = Done m.
Proof.
  intros Hsize. unfold TransitFunctor_CPU.
  replace (Z.to_nat (a_size a)) with 0%nat by lia. simpl.
  destruct (Z.ltb_spec 0 (a_size a)); [lia | done].
Qed.

End FunctorBounds.

(** X1.  A call of the sequential functor that returns leaves every buffer
    with the length it had, creates no buffer and frees none: the functor
    neither resizes nor reallocates. *)
Theorem TransitFunctor_CPU_lengths {T : Type}
    (compute_delta : Z → list T → T → T → T)
    (a : FunctorArgs) (m m' : gmap positive (list T)) :
  TransitFunctor_CPU compute_delta a m = Done m' →
  ∀ b : buffer, length <$> (m' !! b) = length <$> (m !! b).
Proof.
  intros Hrun. exact (for_loop_lengths compute_delta a _ _ _ _ Hrun).
Qed.

Lemma TransitFunctor_CPU_lengths_witness :
  length <$> (<[4%positive := [14; 22; 25]]> Examples.heap1 !! 4%positive)
  = length <$> (Examples.heap1 !! 4%positive).
Proof.
  apply (TransitFunctor_CPU_lengths Examples.sample_delta Examples.args1
           Examples.heap1).
  vm_compute. reflexivity.
Defined.

(** X2.  Bounds.  For a positive [size] and a live grid, the sequential
    functor returns if and only if the buffers of [z], [r] and [delta] are
    live and hold at least [size] elements each; otherwise the loop reads
    or writes outside a buffer. *)
Theorem TransitFunctor_CPU_completes_iff {T : Type}
    (compute_delta : Z → list T → T → T → T)
    (a : FunctorArgs) (m : gmap positive (list T)) :
  0 < a_size a ≤ kint32max →
  is_Some (m !! a_grid a) →
  (∃ m', TransitFunctor_CPU compute_delta a m = Done m')
  ↔ (∃ zs rs ds : list T,
       m !! a_z a = Some zs ∧ m !! a_r a = Some rs ∧ m !! a_delta a = Some ds
       ∧ a_size a ≤ Z.of_nat (length zs)
       ∧ a_size a ≤ Z.of_nat (length rs)
       ∧ a_size a ≤ Z.of_nat (length ds)).
Proof.
  intros [Hpos Hmax] Hgrid.
  rewrite TransitFunctor_CPU_sequential by done.
  unfold TransitFunctor_GPU.
  transitivity (is_Some (run_schedule compute_delta a
                           (indices (Z.to_nat (a_size a))) m)).
  { destruct (run_schedule _ _ _ _) as [m1 |]; split.
    - by eauto.
    - by eauto.
    - by intros [? ?].
    - by intros [? ?]. }
  rewrite run_schedule_is_Some. unfold indices, accessible, in_bounds. split.
  - intros Hall.
    destruct (Hall (a_size a - 1)) as ((zs & Hz & Hiz) & (rs & Hr & Hir)
                                       & _ & (ds & Hd & Hid)).
    { apply list_elem_of_fmap. exists (Z.to_nat (a_size a - 1)).
      split; [lia |]. apply elem_of_seq. lia. }
    exists zs, rs, ds. split_and!; (done || lia).
  - intros (zs & rs & ds & Hz & Hr & Hd & Hlz & Hlr & Hld) i Hi.
    apply list_elem_of_fmap in Hi as (k & -> & Hk%elem_of_seq).
    split_and!; [exists zs | exists rs | done | exists ds];
      (split; [done | lia]).
Qed.

Lemma TransitFunctor_CPU_completes_iff_witness :
  (∃ m', TransitFunctor_CPU Examples.sample_delta Examples.args1
           Examples.heap1 = Done m')
  ↔ (∃ zs rs ds : list Z,
       Examples.heap1 !! 2%positive = Some zs
       ∧ Examples.heap1 !! 3%positive = Some rs
       ∧ Examples.heap1 !! 4%positive = Some ds
       ∧ 3 ≤ Z.of_nat (length zs)
       ∧ 3 ≤ Z.of_nat (length rs)
       ∧ 3 ≤ Z.of_nat (length ds)).
Proof.
  apply (TransitFunctor_CPU_completes_iff Examples.sample_delta Examples.args1
           Examples.heap1).
  - vm_compute. split; [reflexivity | congruence].
  - exists [10; 9; 8; 7]. reflexivity.
Defined.

(** X3.  Buffers longer than the batch.  When [z], [r] and [delta] hold at
    least [size] elements, the call writes the first [size] slots of the
    output, from the first [size] samples, and leaves the slots from
    [size] on as they were. *)
Theorem TransitFunctor_CPU_prefix {T : Type}
    (compute_delta : Z → list T → T → T → T)
    (a : FunctorArgs) (m : gmap positive (list T)) (g zs rs ds : list T) :
  m !! a_grid a = Some g → m !! a_z a = Some zs →
  m !! a_r a = Some rs → m !! a_delta a = Some ds →
  a_delta a ≠ a_grid a →
  0 ≤ a_size a ≤ kint32max →
  a_size a ≤ Z.of_nat (length zs) →
  a_size a ≤ Z.of_nat (length rs) →
  a_size a ≤ Z.of_nat (length ds) →
  TransitFunctor_CPU compute_delta a m
  = Done (<[a_delta a :=
             batch compute_delta (a_grid_size a) g
               (take (Z.to_nat (a_size a)) zs) (take (Z.to_nat (a_size a)) rs)
             ++ drop (Z.to_nat (a_size a)) ds]> m).
Proof.
  intros Hg Hz Hr Hd Hne [Hpos Hmax] Hlz Hlr Hld.
  rewrite TransitFunctor_CPU_sequential by done.
  unfold TransitFunctor_GPU, indices.
  rewrite (run_schedule_complete compute_delta a m g zs rs ds Hg Hz Hr Hd Hne
             (Z.to_nat (a_size a)) (seq 0 (Z.to_nat (a_size a))))
    by (done || lia).
  done.
Qed.

Lemma TransitFunctor_CPU_prefix_witness :
  TransitFunctor_CPU Examples.sample_delta Examples.args_prefix Examples.heap1
  = Done (<[4%positive :=
             batch Examples.sample_delta 4 [10; 9; 8; 7]
               (take 2 [0; 1; 3]) (take 2 [1; 2; 3])
             ++ drop 2 [0; 0; 0]]> Examples.heap1).
Proof.
  apply (TransitFunctor_CPU_prefix Examples.sample_delta Examples.args_prefix
           Examples.heap1 [10; 9; 8; 7] [0; 1; 3] [1; 2; 3] [0; 0; 0]);
    try reflexivity; vm_compute; (congruence || (split; congruence)).
Defined.

(** The prefix example evaluated: two slots written, the third kept. *)
Example TransitFunctor_CPU_prefix_example :
  TransitFunctor_CPU Examples.sample_delta Examples.args_prefix Examples.heap1
  = Done (<[4%positive := [14; 22; 0]]> Examples.heap1).
Proof. vm_compute. reflexivity. Qed.

(** * Further properties of the kernel *)

Lemma num_elements_nonneg (sh : list Z) :
  Forall (λ d, 0 ≤ d) sh → 0 ≤ num_elements sh.
Proof.
  unfold num_elements. induction 1 as [| d sh Hd _ IH]; simpl; lia.
Qed.

(** X4.  The kernel and the functor together.  On input tensors whose
    buffers are live and as long as their shapes say, with [z] and [r] of
    equal size within the ceiling and a successful allocation, the CPU
    kernel ends with status [OK] and without fault, after exactly one call
    of the functor; the output tensor has the shape of [z], its buffer did
    not exist before, and slot [i] of it holds [compute_delta] of the grid
    and sample [i]. *)
Theorem TransitOp_CPU_end_to_end {T : Type}
    (compute_delta : Z → list T → T → T → T)
    (ins : Inputs Tensor) (h : gmap positive (list T)) (al : Allocator T)
    (g zs rs : list T) :
  h !! data (in_params ins) = Some g →
  h !! data (in_z ins) = Some zs →
  Z.of_nat (length zs) = NumElements (in_z ins) →
  h !! data (in_r ins) = Some rs →
  Z.of_nat (length rs) = NumElements (in_r ins) →
  NumElements (in_r ins) = NumElements (in_z ins) →
  NumElements (in_z ins) ≤ kint32max →
  ok (alloc_status al) = true →
  status (TransitOp_CPU compute_delta ins h al) = Status_OK
  ∧ aborted (TransitOp_CPU compute_delta ins h al) = None
  ∧ functor_calls (TransitOp_CPU compute_delta ins h al) = [kernel_args ins h]
  ∧ ∃ (t : Tensor) (out : list T),
      output0 (TransitOp_CPU compute_delta ins h al) = Some t
      ∧ shape t = shape (in_z ins)
      ∧ h !! data t = None
      ∧ heap (TransitOp_CPU compute_delta ins h al) !! data t = Some out
      ∧ Z.of_nat (length out) = NumElements (in_z ins)
      ∧ ∀ (i : nat) (zi ri : T),
          zs !! i = Some zi → rs !! i = Some ri →
          out !! i
          = Some (compute_delta (static_cast_int (NumElements (in_params ins)))
                    g zi ri).
Proof.
  intros Hg Hz Hlz Hr Hlr Heq Hmax Hal. unfold TransitOp_CPU.
  rewrite (Compute_CPU_correct compute_delta ins h al g zs rs) by done.
  simpl. split_and!; [done | done | done |].
  eexists _, _. split_and!; [done | done | | | |]; simpl.
  - apply not_elem_of_dom, is_fresh.
  - apply lookup_insert_eq.
  - unfold batch. rewrite length_zip_with. lia.
  - intros i zi ri Hzi Hri. unfold batch.
    by rewrite lookup_zip_with, Hzi, Hri.
Qed.

Lemma TransitOp_CPU_end_to_end_witness :
  status (TransitOp_CPU Examples.sample_delta Examples.inputs1
            Examples.heap_in Examples.alloc_ok) = Status_OK
  ∧ aborted (TransitOp_CPU Examples.sample_delta Examples.inputs1
               Examples.heap_in Examples.alloc_ok) = None
  ∧ functor_calls (TransitOp_CPU Examples.sample_delta Examples.inputs1
                     Examples.heap_in Examples.alloc_ok)
    = [kernel_args Examples.inputs1 Examples.heap_in]
  ∧ ∃ (t : Tensor) (out : list Z),
      output0 (TransitOp_CPU Examples.sample_delta Examples.inputs1
                 Examples.heap_in Examples.alloc_ok) = Some t
      ∧ shape t = [3]
      ∧ Examples.heap_in !! data t = None
      ∧ heap (TransitOp_CPU Examples.sample_delta Examples.inputs1
                Examples.heap_in Examples.alloc_ok) !! data t = Some out
      ∧ Z.of_nat (length out) = 3
      ∧ ∀ (i : nat) (zi ri : Z),
          [0; 1; 3] !! i = Some zi → [1; 2; 3] !! i = Some ri →
          out !! i = Some (Examples.sample_delta 4 [10; 9; 8; 7] zi ri).
Proof.
  apply (TransitOp_CPU_end_to_end Examples.sample_delta Examples.inputs1
           Examples.heap_in Examples.alloc_ok [10; 9; 8; 7] [0; 1; 3] [1; 2; 3]);
    try reflexivity.
  vm_compute. congruence.
Defined.

(** X5.  The empty batch.  When [z] and [r] have no element and the
    allocation succeeds, the CPU kernel succeeds whatever the heap holds:
    the functor is called with [size = 0], dereferences nothing, and the
    only change is the new, empty output buffer. *)
Theorem TransitOp_CPU_empty_batch {T : Type}
    (compute_delta : Z → list T → T → T → T)
    (ins : Inputs Tensor) (h : gmap positive (list T)) (al : Allocator T) :
  NumElements (in_z ins) = 0 →
  NumElements (in_r ins) = 0 →
  ok (alloc_status al) = true →
  TransitOp_CPU compute_delta ins h al
  = mkContext ins (<[fresh (dom h) := []]> h) al Status_OK
      (Some (mkTensor (shape (in_z ins)) (fresh (dom h))))
      [kernel_args ins h] None
  ∧ a_size (kernel_args ins h) = 0.
Proof.
  intros Hz Hr Hal. unfold TransitOp_CPU.
  assert (Hsize : a_size (kernel_args ins h) = 0) by (simpl; by rewrite Hz).
  split; [| done].
  rewrite Compute_cases, Hz, Hr, Hal. simpl.
  unfold call_functor.
  rewrite TransitFunctor_CPU_no_samples by lia.
  unfold allocated. simpl. unfold NumElements in Hz. by rewrite Hz.
Qed.

Lemma TransitOp_CPU_empty_batch_witness :
  TransitOp_CPU Examples.sample_delta Examples.inputs_empty_batch
    Examples.heap_empty_batch Examples.alloc_ok
  = mkContext Examples.inputs_empty_batch
      (<[fresh (dom Examples.heap_empty_batch) := []]> Examples.heap_empty_batch)
      Examples.alloc_ok Status_OK
      (Some (mkTensor [0] (fresh (dom Examples.heap_empty_batch))))
      [kernel_args Examples.inputs_empty_batch Examples.heap_empty_batch] None
  ∧ a_size (kernel_args Examples.inputs_empty_batch
              Examples.heap_empty_batch) = 0.
Proof.
  apply (TransitOp_CPU_empty_batch Examples.sample_delta
           Examples.inputs_empty_batch Examples.heap_empty_batch
           Examples.alloc_ok); reflexivity.
Defined.

(** X6.  An oversized batch is rejected after its output has been
    allocated: when [z] and [r] agree on a size above [kint32max] and the
    allocation succeeds, the call ends with
    [InvalidArgument("Too many elements in tensor")], the output tensor is
    set, and the heap has gained a buffer with one element per element of
    [z]. *)
Theorem Compute_oversized_allocates {T : Type} (F : Functor T)
    (ins : Inputs Tensor) (h : gmap positive (list T)) (al : Allocator T) :
  kint32max < NumElements (in_z ins) →
  NumElements (in_r ins) = NumElements (in_z ins) →
  ok (alloc_status al) = true →
  status (Compute F (new_context ins h al))
  = InvalidArgument "Too many elements in tensor"
  ∧ output0 (Compute F (new_context ins h al))
    = Some (mkTensor (shape (in_z ins)) (fresh (dom h)))
  ∧ h !! fresh (dom h) = None
  ∧ ∃ l : list T,
      heap (Compute F (new_context ins h al)) !! fresh (dom h) = Some l
      ∧ Z.of_nat (length l) = NumElements (in_z ins).
Proof.
  intros Hbig Heq Hal. rewrite Compute_cases, Heq, Z.eqb_refl, Hal.
  destruct (Z.leb_spec (NumElements (in_z ins)) kint32max); [lia |].
  simpl. split_and!; [done | done | apply not_elem_of_dom, is_fresh |].
  eexists. split; [apply lookup_insert_eq |].
  rewrite length_fmap, length_seq. unfold NumElements in *.
  unfold kint32max in *. lia.
Qed.

Lemma Compute_oversized_allocates_witness :
  status Examples.run_oversized
  = InvalidArgument "Too many elements in tensor"
  ∧ output0 Examples.run_oversized
    = Some (mkTensor [2147483648] (fresh (dom Examples.heap_oversized)))
  ∧ Examples.heap_oversized !! fresh (dom Examples.heap_oversized) = None
  ∧ ∃ l : list Z,
      heap Examples.run_oversized !! fresh (dom Examples.heap_oversized) = Some l
      ∧ Z.of_nat (length l) = 2147483648.
Proof.
  apply (Compute_oversized_allocates (TransitFunctor_CPU Examples.sample_delta)
           Examples.inputs_oversized Examples.heap_oversized Examples.alloc_ok).
  - vm_compute. reflexivity.
  - reflexivity.
  - reflexivity.
Defined.

(** X7.  When the call succeeds.  [Compute] ends with status [OK] exactly
    when its three tests pass, and that is exactly when the functor has
    been called; otherwise the status is one of the two [InvalidArgument]
    errors of the kernel or the error of the allocator. *)
Theorem Compute_status {T : Type} (F : Functor T)
    (ins : Inputs Tensor) (h : gmap positive (list T)) (al : Allocator T) :
  ok (status (Compute F (new_context ins h al)))
  = (NumElements (in_r ins) =? NumElements (in_z ins))
    && ok (alloc_status al)
    && (NumElements (in_z ins) <=? kint32max)
  ∧ (ok (status (Compute F (new_context ins h al))) = true
     ↔ functor_calls (Compute F (new_context ins h al)) = [kernel_args ins h])
  ∧ (status (Compute F (new_context ins h al)) = Status_OK
     ∨ status (Compute F (new_context ins h al))
       = InvalidArgument "z and r must have the same number of elements"
     ∨ status (Compute F (new_context ins h al))
       = InvalidArgument "Too many elements in tensor"
     ∨ status (Compute F (new_context ins h al)) = alloc_status al).
Proof.
  rewrite Compute_cases.
  destruct (NumElements (in_r ins) =? NumElements (in_z ins)); simpl.
  2:{ split_and!; [done | split; intros [=] | auto]. }
  destruct (ok (alloc_status al)) eqn:Hal; simpl.
  2:{ rewrite Hal. split_and!; [done | split; intros [=] | auto]. }
  destruct (NumElements (in_z ins) <=? kint32max); simpl.
  2:{ split_and!; [done | split; intros [=] | auto]. }
  unfold call_functor.
  destruct (F _ _); simpl; (split_and!; [done | by split | auto]).
Qed.

Lemma Compute_status_witness :
  ok (status Examples.run1) = true
  ↔ functor_calls Examples.run1 = [kernel_args Examples.inputs1 Examples.heap_in].
Proof.
  exact (proj1 (proj2 (Compute_status (TransitFunctor_CPU Examples.sample_delta)
                         Examples.inputs1 Examples.heap_in Examples.alloc_ok))).
Defined.

(** X8.  Allocation failure.  When [z] and [r] agree in size and
    [allocate_output] fails, [Compute] returns with the allocator's status,
    whatever the size: no output is set, the heap is as it was and the
    functor is not called. *)
Theorem Compute_allocation_failure {T : Type} (F : Functor T)
    (ins : Inputs Tensor) (h : gmap positive (list T)) (al : Allocator T) :
  NumElements (in_r ins) = NumElements (in_z ins) →
  ok (alloc_status al) = false →
  Compute F (new_context ins h al)
  = mkContext ins h al (alloc_status al) None [] None.
Proof.
  intros Heq Hal. by rewrite Compute_cases, Heq, Z.eqb_refl, Hal.
Qed.

Lemma Compute_allocation_failure_witness :
  Compute (TransitFunctor_CPU Examples.sample_delta)
    (new_context Examples.inputs1 Examples.heap_in Examples.alloc_oom)
  = mkContext Examples.inputs1 Examples.heap_in Examples.alloc_oom
      (alloc_status Examples.alloc_oom) None [] None.
Proof.
  apply (Compute_allocation_failure (TransitFunctor_CPU Examples.sample_delta)
           Examples.inputs1 Examples.heap_in Examples.alloc_oom);
    reflexivity.
Defined.

(** X9.  The size is never truncated.  For a [z] tensor whose dimensions
    are not negative, every call of the functor made by [Compute] receives
    [size] equal to the number of elements of [z], between [0] and
    [kint32max]: the test before the call makes the narrowing cast of
    [size] lossless. *)
Theorem Compute_size_lossless {T : Type} (F : Functor T)
    (ins : Inputs Tensor) (h : gmap positive (list T)) (al : Allocator T)
    (a : FunctorArgs) :
  Forall (λ d, 0 ≤ d) (shape (in_z ins)) →
  a ∈ functor_calls (Compute F (new_context ins h al)) →
  a_size a = NumElements (in_z ins) ∧ 0 ≤ a_size a ≤ kint32max.
Proof.
  intros Hdims%num_elements_nonneg. rewrite Compute_cases.
  destruct (NumElements (in_r ins) =? NumElements (in_z ins)); simpl;
    [| by intros ?%elem_of_nil].
  destruct (ok (alloc_status al)); simpl; [| by intros ?%elem_of_nil].
  destruct (Z.leb_spec (NumElements (in_z ins)) kint32max) as [Hmax |]; simpl;
    [| by intros ?%elem_of_nil].
  assert (Hcalls : functor_calls (call_functor F (allocated ins h al)
                                    (kernel_args ins h)) = [kernel_args ins h]).
  { unfold call_functor. by destruct (F _ _). }
  rewrite Hcalls. intros ->%list_elem_of_singleton. simpl.
  fold (NumElements (in_z ins)) in Hdims.
  rewrite static_cast_int_small by lia. lia.
Qed.

Lemma Compute_size_lossless_witness :
  a_size (kernel_args Examples.inputs1 Examples.heap_in) = 3
  ∧ 0 ≤ a_size (kernel_args Examples.inputs1 Examples.heap_in) ≤ kint32max.
Proof.
  apply (Compute_size_lossless (TransitFunctor_CPU Examples.sample_delta)
           Examples.inputs1 Examples.heap_in Examples.alloc_ok).
  - repeat constructor. lia.
  - change (functor_calls
              (Compute (TransitFunctor_CPU Examples.sample_delta)
                 (new_context Examples.inputs1 Examples.heap_in
                    Examples.alloc_ok)))
      with [kernel_args Examples.inputs1 Examples.heap_in].
    apply list_elem_of_singleton. reflexivity.
Defined.

(** X10.  The footprint of a call.  Whatever the inputs, the CPU kernel
    leaves every buffer that was live before the call with the contents it
    had, and the only buffer that can be live afterwards without having
    been live before is the one of the output. *)
Theorem TransitOp_CPU_footprint {T : Type}
    (compute_delta : Z → list T → T → T → T)
    (ins : Inputs Tensor) (h : gmap positive (list T)) (al : Allocator T) :
  (∀ (b : buffer) (l : list T),
     h !! b = Some l →
     heap (TransitOp_CPU compute_delta ins h al) !! b = Some l)
  ∧ (∀ b : buffer,
       is_Some (heap (TransitOp_CPU compute_delta ins h al) !! b) →
       is_Some (h !! b) ∨ b = fresh (dom h)).
Proof.
  unfold TransitOp_CPU. split.
  - intros b l Hb. by rewrite Compute_CPU_frame.
  - intros b. rewrite Compute_cases.
    destruct (NumElements (in_r ins) =? NumElements (in_z ins)); simpl;
      [| auto].
    destruct (ok (alloc_status al)); simpl; [| auto].
    assert (Hins : ∀ x : list T,
              is_Some (<[fresh (dom h) := x]> h !! b) →
              is_Some (h !! b) ∨ b = fresh (dom h)).
    { intros x. destruct (decide (fresh (dom h) = b)) as [<- | Hne]; [auto |].
      rewrite lookup_insert_ne by done. auto. }
    destruct (NumElements (in_z ins) <=? kint32max); simpl; [| apply Hins].
    unfold call_functor.
    destruct (TransitFunctor_CPU compute_delta (kernel_args ins h)
                (heap (allocated ins h al))) as [h' | f] eqn:Hrun; simpl;
      [| apply Hins].
    intros Hb. apply (Hins (alloc_fill al <$>
                 seq 0 (Z.to_nat (num_elements (shape (in_z ins)))))).
    pose proof (for_loop_lengths compute_delta _ _ _ _ _ Hrun b) as Hlen.
    simpl in Hlen. apply (fmap_is_Some length). rewrite <- Hlen.
    by apply fmap_is_Some.
Qed.

Lemma TransitOp_CPU_footprint_witness :
  heap (TransitOp_CPU Examples.sample_delta Examples.inputs1 Examples.heap_in
          Examples.alloc_ok) !! 2%positive = Some [0; 1; 3].
Proof.
  apply (proj1 (TransitOp_CPU_footprint Examples.sample_delta Examples.inputs1
                  Examples.heap_in Examples.alloc_ok)).
  reflexivity.
Defined.

(** X11.  [Compute] reads the tensors [params] and [r] only through their
    element counts and buffers: two calls whose [z] tensors are the same
    and whose [params] and [r] tensors agree on element count and buffer,
    whatever their shapes (a grid need not have rank 1 here, and [r] need
    not have the shape of [z]), end with the same status, heap, output and
    functor call. *)
Theorem Compute_counts_only {T : Type} (F : Functor T)
    (ins ins' : Inputs Tensor) (h : gmap positive (list T)) (al : Allocator T) :
  in_z ins' = in_z ins →
  data (in_params ins') = data (in_params ins) →
  NumElements (in_params ins') = NumElements (in_params ins) →
  data (in_r ins') = data (in_r ins) →
  NumElements (in_r ins') = NumElements (in_r ins) →
  status (Compute F (new_context ins' h al))
  = status (Compute F (new_context ins h al))
  ∧ heap (Compute F (new_context ins' h al))
    = heap (Compute F (new_context ins h al))
  ∧ output0 (Compute F (new_context ins' h al))
    = output0 (Compute F (new_context ins h al))
  ∧ functor_calls (Compute F (new_context ins' h al))
    = functor_calls (Compute F (new_context ins h al))
  ∧ aborted (Compute F (new_context ins' h al))
    = aborted (Compute F (new_context ins h al)).
Proof.
  intros Hz Hdp Hnp Hdr Hnr.
  assert (Hargs : kernel_args ins' h = kernel_args ins h).
  { unfold kernel_args. by rewrite Hz, Hdp, Hnp, Hdr. }
  rewrite !Compute_cases, Hnr, Hz.
  destruct (NumElements (in_r ins) =? NumElements (in_z ins)); simpl; [| done].
  destruct (ok (alloc_status al)); simpl; [| done].
  destruct (NumElements (in_z ins) <=? kint32max); simpl; [| by rewrite Hz].
  unfold call_functor, allocated. simpl. rewrite Hargs, Hz.
  by destruct (F _ _).
Qed.

Lemma Compute_counts_only_witness :
  status (Compute (TransitFunctor_CPU Examples.sample_delta)
            (new_context Examples.inputs1_reshaped Examples.heap_in
               Examples.alloc_ok))
  = status Examples.run1
  ∧ heap (Compute (TransitFunctor_CPU Examples.sample_delta)
            (new_context Examples.inputs1_reshaped Examples.heap_in
               Examples.alloc_ok))
    = heap Examples.run1
  ∧ output0 (Compute (TransitFunctor_CPU Examples.sample_delta)
               (new_context Examples.inputs1_reshaped Examples.heap_in
                  Examples.alloc_ok))
    = output0 Examples.run1
  ∧ functor_calls (Compute (TransitFunctor_CPU Examples.sample_delta)
                     (new_context Examples.inputs1_reshaped Examples.heap_in
                        Examples.alloc_ok))
    = functor_calls Examples.run1
  ∧ aborted (Compute (TransitFunctor_CPU Examples.sample_delta)
               (new_context Examples.inputs1_reshaped Examples.heap_in
                  Examples.alloc_ok))
    = aborted Examples.run1.
Proof.
  apply (Compute_counts_only (TransitFunctor_CPU Examples.sample_delta)
           Examples.inputs1 Examples.inputs1_reshaped Examples.heap_in
           Examples.alloc_ok); reflexivity.
Defined.

(** * Further properties of the shape function *)

Lemma merge_dims_known (l0 l1 l : list DimensionHandle) :
  merge_dims l0 l1 = Some l →
  Forall is_Some l0 → Forall is_Some l1 → l0 = l1.
Proof.
  revert l1 l. induction l0 as [| d0 l0 IH]; intros [| d1 l1] l Hm H0 H1;
    simpl in Hm; try done.
  apply Forall_cons in H0 as [[x ->] H0].
  apply Forall_cons in H1 as [[y ->] H1].
  simpl in Hm. destruct (Z.eqb_spec x y) as [-> | Hne]; [| done].
  destruct (merge_dims l0 l1) as [l' |] eqn:Hrec; [| done].
  f_equal. by apply (IH l1 l').
Qed.

(** X12.  The shape function requires a grid of rank one: when it
    succeeds, the shape of [params] has unknown rank or exactly one
    dimension; when the rank is known and is not one, it returns an
    [InvalidArgument] error and sets no output shape. *)
Theorem TransitShapeFn_grid_rank (c : InferenceContext) :
  (ok (TransitShapeFn c).1 = true →
   ic_input c 0 = None ∨ ∃ d, ic_input c 0 = Some [d])
  ∧ (∀ dims, ic_input c 0 = Some dims → length dims ≠ 1%nat →
       code (TransitShapeFn c).1 = INVALID_ARGUMENT
       ∧ (TransitShapeFn c).2 = c).
Proof.
  unfold TransitShapeFn, WithRank. split.
  - destruct (ic_input c 0) as [dims |]; [| auto].
    destruct (Z.eqb_spec (Z.of_nat (length dims)) 1) as [Hlen | Hlen];
      simpl; [| done].
    intros _. right.
    destruct dims as [| d [| d' dims]]; simpl in Hlen; try lia. by exists d.
  - intros dims -> Hlen.
    destruct (Z.eqb_spec (Z.of_nat (length dims)) 1); [lia |]. done.
Qed.

Lemma TransitShapeFn_grid_rank_witness :
  code (TransitShapeFn Examples.shapes_matrix_grid).1 = INVALID_ARGUMENT
  ∧ (TransitShapeFn Examples.shapes_matrix_grid).2 = Examples.shapes_matrix_grid.
Proof.
  apply (proj2 (TransitShapeFn_grid_rank Examples.shapes_matrix_grid)
           [Some 2; Some 2]).
  - reflexivity.
  - simpl. congruence.
Defined.

(** X13.  The shape function requires [z] and [r] of one shape: when it
    succeeds and both shapes are fully known, they are equal, and so is
    the output shape. *)
Theorem TransitShapeFn_same_shape (c : InferenceContext)
    (lz lr : list DimensionHandle) :
  ok (TransitShapeFn c).1 = true →
  ic_input c 1 = Some lz → ic_input c 2 = Some lr →
  Forall is_Some lz → Forall is_Some lr →
  lz = lr ∧ ic_output0 (TransitShapeFn c).2 = Some (Some lr).
Proof.
  unfold TransitShapeFn. intros Hok Hz Hr Hkz Hkr.
  destruct (WithRank (ic_input c 0) 1) as [st1 shape1].
  destruct (ok st1) eqn:H1; simpl in *; [| congruence].
  rewrite Hz, Hr in *. unfold Merge in *.
  destruct (length lz =? length lr)%nat; simpl in *; [| done].
  destruct (merge_dims lz lr) as [l |] eqn:Hm; simpl in *; [| done].
  assert (lz = lr) as -> by exact (merge_dims_known lz lr l Hm Hkz Hkr).
  done.
Qed.

Lemma TransitShapeFn_same_shape_witness :
  [Some 3] = [Some 3]
  ∧ ic_output0 (TransitShapeFn Examples.shapes_known).2 = Some (Some [Some 3]).
Proof.
  apply (TransitShapeFn_same_shape Examples.shapes_known [Some 3] [Some 3]);
    try reflexivity; repeat constructor; by eexists.
Defined.
